(** * YouTube lead list actor: a shallow embedding of [main_Version2.js]

    The actor discovers YouTube channels through the Data API and keeps the
    ones that pass a chain of filters.  This development embeds the parts of
    [main_Version2.js] that carry decision logic

    - [normalizeChannelIdOrUrl] and [isoDurationToSeconds],
    - the retry loop of [youtubeApiRequest],
    - the pagination loop of [getPlaylistVideoIds],
    - the per-candidate evaluation (metrics and filter chain),
    - the candidate collection and the main evaluation loop,

    and states the properties of the specification about them.

    Conventions of the embedding.
    - JavaScript strings are [string]s of 8-bit characters; [toLowerCase] and
      [trim] act on the ASCII letters and the ASCII white space.
    - JavaScript numbers that hold integers are [Z]; [NaN] is explicit
      ([Num]); a quotient of two integers is an exact rational ([Q]).
    - [undefined]/[null]/absent properties are [None].
    - The network is a parameter: a script of fetch outcomes for the retry
      loop, an oracle of page responses for the pagination loop, and a record
      of services for the evaluation of one candidate. *)

From Stdlib Require Import ZArith QArith List String Ascii Bool Lia.
From stdpp Require Import gmap strings.
From Stdlib Require DecimalString DecimalNat.
From stdpp Require Import sorting.
Import ListNotations.

Local Open Scope string_scope.
Local Open Scope Z_scope.

(** ** JavaScript primitives used by the actor *)

Module Js.

(** [NaN] or an integer-valued number. *)
Inductive Num : Type :=
| NaN
| Int (z : Z).

(** Truthiness of a string value: only the empty string is falsy. *)
Definition truthy (s : string) : bool :=
  match s with
  | EmptyString => false
  | String _ _ => true
  end.

(** Truthiness of a property that may be absent. *)
Definition truthyOpt (o : option string) : bool :=
  match o with
  | Some s => truthy s
  | None => false
  end.

Definition isUpper (c : ascii) : bool :=
  let n := nat_of_ascii c in (65 <=? n)%nat && (n <=? 90)%nat.

Definition isLower (c : ascii) : bool :=
  let n := nat_of_ascii c in (97 <=? n)%nat && (n <=? 122)%nat.

Definition isDigit (c : ascii) : bool :=
  let n := nat_of_ascii c in (48 <=? n)%nat && (n <=? 57)%nat.

(** White space removed by [String.prototype.trim] (ASCII part). *)
Definition isSpace (c : ascii) : bool :=
  let n := nat_of_ascii c in
  ((9 <=? n)%nat && (n <=? 13)%nat) || (n =? 32)%nat.

Definition lowerChar (c : ascii) : ascii :=
  if isUpper c then ascii_of_nat (nat_of_ascii c + 32) else c.

(** [s.toLowerCase()] *)
Fixpoint toLowerCase (s : string) : string :=
  match s with
  | EmptyString => EmptyString
  | String c r => String (lowerChar c) (toLowerCase r)
  end.

(** [s.includes(sub)] *)
Fixpoint includes (s sub : string) : bool :=
  if String.prefix sub s then true
  else match s with
       | EmptyString => false
       | String _ r => includes r sub
       end.

Fixpoint trimStart (s : string) : string :=
  match s with
  | EmptyString => EmptyString
  | String c r => if isSpace c then trimStart r else s
  end.

Fixpoint trimEnd (s : string) : string :=
  match s with
  | EmptyString => EmptyString
  | String c r =>
      match trimEnd r with
      | EmptyString => if isSpace c then EmptyString else String c EmptyString
      | r' => String c r'
      end
  end.

(** [s.trim()] *)
Definition trim (s : string) : string := trimEnd (trimStart s).

(** [s.split(sep)] for a one-character separator. *)
Fixpoint split (sep : ascii) (s : string) : list string :=
  match s with
  | EmptyString => [EmptyString]
  | String c r =>
      if Ascii.eqb c sep then EmptyString :: split sep r
      else match split sep r with
           | [] => [String c EmptyString]
           | p :: ps => String c p :: ps
           end
  end.

(** [parts.join(sep)] *)
Fixpoint join (sep : string) (parts : list string) : string :=
  match parts with
  | [] => EmptyString
  | [p] => p
  | p :: ps => p ++ sep ++ join sep ps
  end.

(** The longest prefix of decimal digits, and what follows it. *)
Fixpoint spanDigits (s : string) : string * string :=
  match s with
  | EmptyString => (EmptyString, EmptyString)
  | String c r =>
      if isDigit c then let (d, rest) := spanDigits r in (String c d, rest)
      else (EmptyString, s)
  end.

Definition digitValue (c : ascii) : Z := Z.of_nat (nat_of_ascii c) - 48.

(** The value of a string of decimal digits, read left to right. *)
Fixpoint digitsValue (acc : Z) (s : string) : Z :=
  match s with
  | EmptyString => acc
  | String c r => digitsValue (10 * acc + digitValue c) r
  end.

(** [parseInt(s, 10)]: leading white space, an optional sign, then the
    longest run of digits; [NaN] when that run is empty. *)
Definition parseInt (s : string) : Num :=
  let s1 := trimStart s in
  let (sign, s2) :=
    match s1 with
    | String "-" r => (-1, r)
    | String "+" r => (1, r)
    | _ => (1, s1)
    end in
  match fst (spanDigits s2) with
  | EmptyString => NaN
  | d => Int (sign * digitsValue 0 d)
  end.

(** [arr.slice(0, e)] *)
Definition slice0 {A : Type} (l : list A) (e : Z) : list A :=
  let len := Z.of_nat (length l) in
  let k := if e <? 0 then Z.max (len + e) 0 else Z.min e len in
  firstn (Z.to_nat k) l.

(** [Math.round(a / n)] for integers [a] and [n > 0]: the nearest integer,
    a tie going up. *)
Definition roundDiv (a n : Z) : Z := (2 * a + n) / (2 * n).

End Js.

(** ** Identifier normalizer *)

Module Normalizer.

Definition isIdChar (c : ascii) : bool :=
  Js.isUpper c || Js.isLower c || Js.isDigit c
  || Ascii.eqb c "_" || Ascii.eqb c "-".

Fixpoint allIdChars (s : string) : bool :=
  match s with
  | EmptyString => true
  | String c r => isIdChar c && allIdChars r
  end.

(** [/^UC[A-Za-z0-9_-]{20,}$/.test(s)] *)
Definition isChannelId (s : string) : bool :=
  match s with
  | String "U" (String "C" r) => (20 <=? String.length r)%nat && allIdChars r
  | _ => false
  end.

Section WithURL.

(** [new URL(s).pathname]; [None] when the constructor throws. *)
Variable urlPathname : string -> option string.

(** [normalizeChannelIdOrUrl(item)]; [None] is the [null] result. *)
Definition normalizeChannelIdOrUrl (item : string) : option string :=
  if negb (Js.truthy item) then None
  else
    let s := Js.trim item in
    if isChannelId s then Some s
    else
      match urlPathname s with
      | Some pathname =>
          let parts := List.filter Js.truthy (Js.split "/" pathname) in
          match parts with
          | p0 :: p1 :: _ =>
              if String.eqb p0 "channel" && Js.truthy p1 then Some p1
              else Some s
          | _ => Some s
          end
      | None => Some s
      end.

End WithURL.

End Normalizer.

(** ** ISO 8601 durations *)

Module Duration.

(** What follows the first occurrence of ["PT"], if any. *)
Fixpoint afterPT (s : string) : option string :=
  match s with
  | EmptyString => None
  | String c r =>
      match c, r with
      | "P"%char, String "T" r' => Some r'
      | _, _ => afterPT r
      end
  end.

(** One optional group [(?:(\d+)U)?] of the pattern: the captured digits
    (if the group matched) and the rest of the input. *)
Definition group (unit : ascii) (s : string) : option string * string :=
  match Js.spanDigits s with
  | (String d ds, String u rest) =>
      if Ascii.eqb u unit then (Some (String d ds), rest) else (None, s)
  | _ => (None, s)
  end.

(** [parseInt(m[i] || '0', 10)] on a capture of [\d+]. *)
Definition captured (g : option string) : Z :=
  match g with
  | Some d => Js.digitsValue 0 d
  | None => 0
  end.

(** [isoDurationToSeconds(iso)] *)
Definition isoDurationToSeconds (iso : string) : Z :=
  if negb (Js.truthy iso) then 0
  else
    match afterPT iso with
    | None => 0
    | Some r =>
        let (h, r1) := group "H" r in
        let (m, r2) := group "M" r1 in
        let (s, _) := group "S" r2 in
        captured h * 3600 + captured m * 60 + captured s
    end.

End Duration.

(** ** API client: the retry loop *)

Module ApiClient.

Section Request.

(** The parsed body of a successful response. *)
Variable Json : Type.

(** What the caller of [youtubeApiRequest] can observe of a failure. *)
Inductive ApiError : Type :=
| HttpError (status : Z) (text : string)   (* [YouTube API error <status>: <text>] *)
| FetchError (message : string).           (* the rejection of [fetch] or of [res.json()] *)

(** The outcome of one [fetchLib(url, ...)] followed by reading the body. *)
Inductive FetchOutcome : Type :=
| FetchRejects (message : string)            (* [fetchLib] or [res.text()] rejects *)
| NotOk (status : Z) (text : string)        (* [!res.ok], with the body read *)
| OkBody (json : Json)                      (* [res.ok], with the body parsed *)
| OkUnreadable (message : string).          (* [res.ok], but [res.json()] rejects *)

(** How a call of [youtubeApiRequest] ends. *)
Inductive Completion : Type :=
| Returned (json : Json)
| ReturnedUndefined
| Thrown (err : ApiError).

(** The effects of a call, in order. *)
Inductive Event : Type :=
| EvFetch
| EvSleep (ms : Z).

(** [script n] is the outcome of the fetch made while [attempt = n]; the
    counter [attempt] is also the number of fetches made so far, since every
    fetch that does not end the call increments it once. *)
Variable script : Z -> FetchOutcome.
Variable maxRetries : Z.

(** [1000 * Math.pow(2, attempt)] *)
Definition backoff (attempt : Z) : Z := 1000 * 2 ^ attempt.

(** The [catch (err)] block. *)
Definition onCatch (k : Z -> list Event -> option (Completion * list Event))
  (attempt : Z) (trace : list Event) (err : ApiError)
  : option (Completion * list Event) :=
  let attempt' := attempt + 1 in
  if maxRetries <? attempt' then Some (Thrown err, trace)
  else k attempt' (trace ++ [EvSleep (backoff attempt')])%list.

(** The [while (attempt <= maxRetries)] loop; [None] only when [fuel] runs
    out. *)
Fixpoint attemptLoop (fuel : nat) (attempt : Z) (trace : list Event)
  : option (Completion * list Event) :=
  match fuel with
  | O => None
  | S fuel' =>
      if attempt <=? maxRetries then
        let trace1 := (trace ++ [EvFetch])%list in
        match script attempt with
        | NotOk status text =>
            if (status =? 403) || (status =? 429) then
              let attempt' := attempt + 1 in
              attemptLoop fuel' attempt' (trace1 ++ [EvSleep (backoff attempt')])%list
            else onCatch (attemptLoop fuel') attempt trace1 (HttpError status text)
        | OkBody json => Some (Returned json, trace1)
        | FetchRejects message =>
            onCatch (attemptLoop fuel') attempt trace1 (FetchError message)
        | OkUnreadable message =>
            onCatch (attemptLoop fuel') attempt trace1 (FetchError message)
        end
      else Some (ReturnedUndefined, trace)
  end.

(** Every iteration that does not end the call increments [attempt], so
    [maxRetries + 2] iterations are enough. *)
Definition requestFuel : nat := S (Z.to_nat (maxRetries + 1)).

(** [youtubeApiRequest(path, params, maxRetries)] *)
Definition youtubeApiRequest : option (Completion * list Event) :=
  attemptLoop requestFuel 0 [].

(** The waits that are followed by another fetch. *)
Fixpoint retryDelays (trace : list Event) : list Z :=
  match trace with
  | [] => []
  | EvSleep ms :: rest =>
      match rest with
      | EvFetch :: _ => ms :: retryDelays rest
      | _ => retryDelays rest
      end
  | EvFetch :: rest => retryDelays rest
  end.

(** The outcomes the [if (res.status === 403 || res.status === 429)]
    branch handles. *)
Definition rateLimited (o : FetchOutcome) : bool :=
  match o with
  | NotOk status _ => (status =? 403) || (status =? 429)
  | _ => false
  end.

(** The error the [catch] block receives, for the outcomes that reach it. *)
Definition caught (o : FetchOutcome) : option ApiError :=
  match o with
  | NotOk status text =>
      if (status =? 403) || (status =? 429) then None
      else Some (HttpError status text)
  | FetchRejects message => Some (FetchError message)
  | OkUnreadable message => Some (FetchError message)
  | OkBody _ => None
  end.

(** The effects of [n] failed attempts each followed by its wait: the
    [i]-th wait lasts [1000 * 2 ^ i] milliseconds. *)
Definition rounds (n : nat) : list Event :=
  flat_map (fun i => [EvFetch; EvSleep (1000 * 2 ^ Z.of_nat i)]) (seq 1 n).

(** How a call that has reached [attempt = a] with the trace [rounds a]
    can end: with the body of a later successful fetch, with the error the
    [catch] block received on the last allowed attempt, or by leaving the
    loop after a rate-limited last attempt. *)
Inductive Ending (a : nat) : Completion -> list Event -> Prop :=
| EndReturned k json :
    (a <= k)%nat -> Z.of_nat k <= maxRetries ->
    script (Z.of_nat k) = OkBody json ->
    Ending a (Returned json) (rounds k ++ [EvFetch])%list
| EndThrown err :
    caught (script maxRetries) = Some err ->
    Ending a (Thrown err) (rounds (Z.to_nat maxRetries) ++ [EvFetch])%list
| EndUndefined :
    ((a <= Z.to_nat maxRetries)%nat -> rateLimited (script maxRetries) = true) ->
    Ending a ReturnedUndefined (rounds (S (Z.to_nat maxRetries))).

Definition isFetch (e : Event) : bool :=
  match e with
  | EvFetch => true
  | EvSleep _ => false
  end.

Definition fetchCount (trace : list Event) : nat :=
  length (List.filter isFetch trace).

End Request.

Arguments FetchRejects {Json} message.
Arguments NotOk {Json} status text.
Arguments OkBody {Json} json.
Arguments OkUnreadable {Json} message.
Arguments Returned {Json} json.
Arguments ReturnedUndefined {Json}.
Arguments Thrown {Json} err.

(** The retry ceiling when the caller passes none. *)
Definition defaultMaxRetries : Z := 3.

End ApiClient.

(** ** API client: the uploads playlist *)

Module Playlist.

Record ItemContentDetails : Type := { videoId : option string }.

Record PlaylistItem : Type := { itemContentDetails : option ItemContentDetails }.

Record PlaylistPage : Type := {
  items : option (list PlaylistItem);
  nextPageToken : option string
}.

(** How [youtubeApiRequest('playlistItems', ...)] ends for the caller. *)
Inductive PageResult : Type :=
| PageJson (resp : PlaylistPage)
| PageUndefined
| PageThrows.

Section Pages.

(** The answer to a request for [maxResults] items from [pageToken]. *)
Variable request : Z -> option string -> PageResult.
Variable limit : Z.

(** [it.contentDetails && it.contentDetails.videoId] *)
Definition itemVideoId (it : PlaylistItem) : option string :=
  match itemContentDetails it with
  | Some cd => if Js.truthyOpt (videoId cd) then videoId cd else None
  | None => None
  end.

(** The [for (const it of items)] loop with its [break]. *)
Fixpoint pushItems (its : list PlaylistItem) (ids : list string) : list string :=
  match its with
  | [] => ids
  | it :: rest =>
      let ids' := match itemVideoId it with
                  | Some v => (ids ++ [v])%list
                  | None => ids
                  end in
      if Z.of_nat (length ids') >=? limit then ids' else pushItems rest ids'
  end.

(** The [do ... while (pageToken && ids.length < limit)] loop inside its
    [try]; an exception ends the loop with the ids gathered so far. [None]
    only when [fuel] runs out. *)
Fixpoint pageLoop (fuel : nat) (ids : list string) (pageToken : option string)
  : option (list string) :=
  match fuel with
  | O => None
  | S fuel' =>
      let token := if Js.truthyOpt pageToken then pageToken else None in
      match request (Z.min 50 (limit - Z.of_nat (length ids))) token with
      | PageJson resp =>
          let ids' := pushItems (default [] (items resp)) ids in
          let pageToken' := nextPageToken resp in
          if Js.truthyOpt pageToken' && (Z.of_nat (length ids') <? limit)
          then pageLoop fuel' ids' pageToken'
          else Some ids'
      | PageUndefined => Some ids     (* [resp.items] throws a TypeError *)
      | PageThrows => Some ids
      end
  end.

(** Every page that announces a next page carries at least one video id. *)
Definition productive : Prop :=
  forall maxResults token resp,
    request maxResults token = PageJson resp ->
    Js.truthyOpt (nextPageToken resp) = true ->
    exists it, In it (default [] (items resp)) /\ itemVideoId it <> None.

(** [getPlaylistVideoIds(playlistId, limit)] *)
Definition getPlaylistVideoIds (fuel : nat) : option (list string) :=
  pageLoop fuel [] None.

End Pages.

End Playlist.

(** ** Data model of the evaluation *)

(** A video resource of [videos.list]. [publishedAt] is the epoch time in
    milliseconds that [new Date(v.snippet.publishedAt)] denotes. *)
Module Video.

Record Snippet : Type := {
  title : option string;
  description : option string;
  publishedAt : Z
}.

Record Statistics : Type := { viewCount : option string }.

Record ContentDetails : Type := { duration : option string }.

Record t : Type := {
  id : string;
  snippet : option Snippet;
  statistics : option Statistics;
  contentDetails : option ContentDetails
}.

End Video.

(** A channel resource of [channels.list]. *)
Module Channel.

Record Snippet : Type := {
  title : option string;
  description : option string;
  country : option string
}.

Record Statistics : Type := {
  hiddenSubscriberCount : bool;
  subscriberCount : option string
}.

Record RelatedPlaylists : Type := { uploads : option string }.

Record ContentDetails : Type := { relatedPlaylists : option RelatedPlaylists }.

Record t : Type := {
  snippet : option Snippet;
  statistics : option Statistics;
  contentDetails : option ContentDetails
}.

End Channel.

(** An entry of [includeKeywords] or [excludeKeywords]: a string, or a
    [null] left in the input array. *)
Inductive Keyword : Type :=
| KwString (s : string)
| KwNull.

(** The fields of the actor input that the evaluation reads. *)
Record Config : Type := {
  minSubscribers : Z;
  avgViewsMin : Z;
  avgViewsMax : option Z;
  recentVideoWithinDays : Z;
  sampleSize : Z;
  allowShorts : bool;
  includeKeywords : list Keyword;
  excludeKeywords : list Keyword;
  country : string;
  maxChannels : Z;
  seedChannels : list string;
  searchQueries : list string
}.

Record SampleVideo : Type := {
  svVideoId : string;
  svTitle : option string;
  svPublishedAt : option Z;
  svViewCount : Js.Num;
  svDurationSeconds : Z
}.

(** The record pushed to the dataset ([lastScrapedAt] and the URLs, which
    are functions of the ids, are left out). *)
Record OutputRecord : Type := {
  channelId : string;
  channelName : string;
  outSubscriberCount : option Js.Num;
  avgViews : Z;
  outSampleSize : nat;
  shortsRatio : Q;
  outRecentVideoWithinDays : Z;
  outIncludeKeywords : list Keyword;
  outExcludeKeywords : list Keyword;
  outCountry : string;
  outDescription : string;
  sampleVideos : list SampleVideo
}.

(** The terminal outcomes of one candidate that are not a saved record. *)
Inductive SkipReason : Type :=
| NoChannelDetails
| CountryMismatch
| CountryMissing
| SubscribersBelowMin
| SubscribersHidden
| NoUploadsPlaylist
| NoRecentVideos
| NoVideoDetails
| NoRecentVideoWithin
| ShortsPresent
| ExcludedByKeyword
| NoIncludeKeyword
| AvgViewsBelowMin
| AvgViewsAboveMax.

(** How the body of the main loop ends for one candidate: a record is
    saved, a [continue] is taken, or an exception reaches the [catch]. *)
Inductive Verdict : Type :=
| Saved (r : OutputRecord)
| Skipped (why : SkipReason)
| Failed.

(** The API calls of the evaluation, as their callers see them. *)
Record Services : Type := {
  (* [getChannelsDetails([channelId])]; [None] when the call throws *)
  getChannelsDetails : string -> option (list Channel.t);
  (* [getPlaylistVideoIds(uploadsPlaylistId, sampleSize)] *)
  getPlaylistVideoIds : string -> Z -> list string;
  (* [getVideosDetails(videoIds)] *)
  getVideosDetails : list string -> list Video.t;
  (* [discoverChannelsBySearch(query, maxResults)] *)
  discoverChannelsBySearch : string -> Z -> list string;
  (* [Date.now()] as read while the given channel is evaluated *)
  now : string -> Z
}.

(** ** Evaluation of one candidate *)

Module Evaluator.

(** A computation of the loop body: it goes on with a value or ends the
    iteration with a verdict. *)
Inductive Step (A : Type) : Type :=
| Go (a : A)
| Stop (v : Verdict).

Arguments Go {A} a.
Arguments Stop {A} v.

#[global] Instance step_bind : MBind Step :=
  fun A B k c =>
    match c with
    | Go a => k a
    | Stop v => Stop v
    end.

(** [if (cond) { logv(...); continue; }] *)
Definition skipIf (cond : bool) (why : SkipReason) : Step unit :=
  if cond then Stop (Skipped why) else Go tt.

(** [x || ''] for a string property. *)
Definition orEmpty (o : option string) : string :=
  match o with
  | Some s => s
  | None => ""
  end.

(** What string concatenation makes of a property that may be absent. *)
Definition toStr (o : option string) : string :=
  match o with
  | Some s => s
  | None => "undefined"
  end.

(** [a < b] on numbers; false when [a] is [NaN]. *)
Definition numLt (a : Js.Num) (b : Z) : bool :=
  match a with
  | Js.Int z => z <? b
  | Js.NaN => false
  end.

(** The channel fields read at the top of the loop body. *)
Record ChannelInfo : Type := {
  channelTitle : string;
  channelDescription : string;
  channelCountry : string;
  subscriberCount : option Js.Num;
  uploadsPlaylistId : option string
}.

Definition channelInfo (ch : Channel.t) : ChannelInfo :=
  let snippet := Channel.snippet ch in
  let statistics := Channel.statistics ch in
  {| channelTitle := orEmpty (snippet ≫= Channel.title);
     channelDescription := orEmpty (snippet ≫= Channel.description);
     channelCountry := orEmpty (snippet ≫= Channel.country);
     subscriberCount :=
       match statistics with
       | Some st =>
           if Channel.hiddenSubscriberCount st then None
           else if Js.truthyOpt (Channel.subscriberCount st)
                then Some (Js.parseInt (orEmpty (Channel.subscriberCount st)))
                else None
       | None => None
       end;
     uploadsPlaylistId :=
       match Channel.contentDetails ch ≫= Channel.relatedPlaylists with
       | Some rp => Channel.uploads rp
       | None => None
       end |}.

(** [new Date(v.snippet.publishedAt)] as a number; [None] when [v.snippet]
    is undefined and the property access throws. *)
Definition publishedAtOf (v : Video.t) : option Z :=
  Video.publishedAt <$> Video.snippet v.

(** Insertion into a list sorted by publish time, newest first; among equal
    times the inserted video stays in front (the sort is stable). *)
Fixpoint insertByDate (key : Video.t -> Z) (v : Video.t) (l : list Video.t)
  : list Video.t :=
  match l with
  | [] => [v]
  | w :: l' => if key v <? key w then w :: insertByDate key v l' else v :: l
  end.

(** [videos.sort((a, b) => new Date(b.snippet.publishedAt) -
    new Date(a.snippet.publishedAt))]. With two videos or more the
    comparator reads the snippet of each of them. *)
Definition sortByDate (videos : list Video.t) : Step (list Video.t) :=
  match videos with
  | [] | [_] => Go videos
  | _ =>
      if forallb (fun v => bool_decide (is_Some (Video.snippet v))) videos
      then Go (foldr (insertByDate (fun v => default 0 (publishedAtOf v))) [] videos)
      else Stop Failed
  end.

(** The parsed view count of a video, 0 when missing or not a number. *)
Definition viewCountOf (v : Video.t) : Z :=
  let vc :=
    match Video.statistics v with
    | Some st =>
        if Js.truthyOpt (Video.viewCount st)
        then Js.parseInt (orEmpty (Video.viewCount st))
        else Js.Int 0
    | None => Js.Int 0
    end in
  match vc with
  | Js.NaN => 0
  | Js.Int z => z
  end.

Definition sumZ (l : list Z) : Z := foldl Z.add 0 l.

(** [avgViews] *)
Definition computeAvgViews (sample : list Video.t) : Z :=
  let viewCounts := map viewCountOf sample in
  match viewCounts with
  | [] => 0
  | _ => Js.roundDiv (sumZ viewCounts) (Z.of_nat (length viewCounts))
  end.

(** [sampleVideos.some(v => new Date(v.snippet.publishedAt) >= thresholdDate)] *)
Fixpoint someRecent (threshold : Z) (sample : list Video.t) : Step bool :=
  match sample with
  | [] => Go false
  | v :: rest =>
      match publishedAtOf v with
      | None => Stop Failed
      | Some t => if threshold <=? t then Go true else someRecent threshold rest
      end
  end.

(** [hasRecentWithin] *)
Definition hasRecentWithin (cfg : Config) (nowMs : Z) (sample : list Video.t)
  : Step bool :=
  let days := recentVideoWithinDays cfg in
  if negb (days =? 0) && (days >? 0) then
    someRecent (nowMs - days * 24 * 3600 * 1000) sample
  else Go true.

(** The duration in seconds as the loop body computes it. *)
Definition durationOf (v : Video.t) : Z :=
  match Video.contentDetails v with
  | Some cd =>
      if Js.truthyOpt (Video.duration cd)
      then Duration.isoDurationToSeconds (orEmpty (Video.duration cd))
      else 0
  | None => 0
  end.

(** The title of a video, empty when it has none. *)
Definition titleOf (v : Video.t) : string :=
  orEmpty (Video.snippet v ≫= Video.title).

(** The lower-cased title used by the shorts heuristic. *)
Definition lowerTitleOf (v : Video.t) : string :=
  match Video.snippet v with
  | Some sn =>
      if Js.truthyOpt (Video.title sn)
      then Js.toLowerCase (orEmpty (Video.title sn))
      else ""
  | None => ""
  end.

(** One entry of [shortFlags]. *)
Definition shortFlag (v : Video.t) : bool :=
  let dur := durationOf v in
  ((dur >? 0) && (dur <? 60)) || Js.includes (lowerTitleOf v) "short" || false.

Definition shortCount (sample : list Video.t) : nat :=
  length (List.filter (fun b : bool => b) (map shortFlag sample)).

(** [shortsRatio] *)
Definition computeShortsRatio (sample : list Video.t) : Q :=
  match sample with
  | [] => 0%Q
  | _ => Z.of_nat (shortCount sample) # Pos.of_nat (length sample)
  end.

(** [q > 0] *)
Definition positive (q : Q) : bool := negb (Qle_bool q 0).

(** The text of one sample video in [combinedTextParts]. *)
Definition videoText (v : Video.t) : string :=
  match Video.snippet v with
  | Some sn => toStr (Video.title sn) ++ " " ++ orEmpty (Video.description sn)
  | None => ""
  end.

(** [combinedTextParts] *)
Definition combinedTextParts (info : ChannelInfo) (sample : list Video.t)
  : list string :=
  channelTitle info :: channelDescription info :: map videoText sample.

(** [combinedText] *)
Definition combinedText (info : ChannelInfo) (sample : list Video.t) : string :=
  Js.toLowerCase (Js.join " " (combinedTextParts info sample)).

(** The loop [for (const kw of keywords) { if (!kw) continue;
    if (combinedText.includes(kw.toLowerCase())) { found = true; break; } }] *)
Fixpoint anyKeyword (text : string) (keywords : list Keyword) : bool :=
  match keywords with
  | [] => false
  | KwNull :: rest => anyKeyword text rest
  | KwString kw :: rest =>
      if negb (Js.truthy kw) then anyKeyword text rest
      else if Js.includes text (Js.toLowerCase kw) then true
      else anyKeyword text rest
  end.

(** [excluded] after the exclude block. *)
Definition excluded (text : string) (keywords : list Keyword) : bool :=
  match keywords with
  | [] => false
  | _ => anyKeyword text keywords
  end.

(** [includedByKeyword] after the include block. *)
Definition includedByKeyword (text : string) (keywords : list Keyword) : bool :=
  match keywords with
  | [] => true
  | _ => anyKeyword text keywords
  end.

(** The first half of the loop body: the channel is fetched and filtered on
    its own fields, then its sample of recent videos is fetched. *)
Definition gatherSample (cfg : Config) (svc : Services) (channelId : string)
  : Step (ChannelInfo * list Video.t) :=
  match getChannelsDetails svc channelId with
  | None => Stop Failed
  | Some [] => Stop (Skipped NoChannelDetails)
  | Some (ch :: _) =>
      let info := channelInfo ch in
      (if Js.truthy (country cfg) && Js.truthy (channelCountry info)
       then skipIf (negb (Js.includes (Js.toLowerCase (channelCountry info))
                                      (Js.toLowerCase (country cfg))))
                   CountryMismatch
       else skipIf (Js.truthy (country cfg) && negb (Js.truthy (channelCountry info)))
                   CountryMissing) ;;
      match subscriberCount info with
      | Some n => skipIf (numLt n (minSubscribers cfg)) SubscribersBelowMin
      | None => skipIf (minSubscribers cfg >? 0) SubscribersHidden
      end ;;
      skipIf (negb (Js.truthyOpt (uploadsPlaylistId info))) NoUploadsPlaylist ;;
      let videoIds :=
        getPlaylistVideoIds svc (orEmpty (uploadsPlaylistId info)) (sampleSize cfg) in
      skipIf (bool_decide (videoIds = [])) NoRecentVideos ;;
      let videos := getVideosDetails svc videoIds in
      skipIf (bool_decide (videos = [])) NoVideoDetails ;;
      sorted ← sortByDate videos;
      Go (info, Js.slice0 sorted (sampleSize cfg))
  end.

Definition sampleVideoOf (v : Video.t) : SampleVideo :=
  {| svVideoId := Video.id v;
     svTitle := Video.snippet v ≫= Video.title;
     svPublishedAt := publishedAtOf v;
     svViewCount :=
       match Video.statistics v with
       | Some st =>
           if Js.truthyOpt (Video.viewCount st)
           then Js.parseInt (orEmpty (Video.viewCount st))
           else Js.Int 0
       | None => Js.Int 0
       end;
     svDurationSeconds := durationOf v |}.

(** [avgViewsMax !== null && typeof avgViewsMax === 'number' &&
    avgViews > avgViewsMax] *)
Definition aboveMax (cfg : Config) (avg : Z) : bool :=
  match avgViewsMax cfg with
  | Some mx => avg >? mx
  | None => false
  end.

(** The second half of the loop body: the metrics of the sample and the
    filters on them, in the order of the source. *)
Definition judge (cfg : Config) (nowMs : Z) (channelId : string)
  (info : ChannelInfo) (sample : list Video.t) : Step OutputRecord :=
  let avg := computeAvgViews sample in
  recent ← hasRecentWithin cfg nowMs sample;
  skipIf (negb recent) NoRecentVideoWithin ;;
  let ratio := computeShortsRatio sample in
  skipIf (negb (allowShorts cfg) && positive ratio) ShortsPresent ;;
  let text := combinedText info sample in
  skipIf (excluded text (excludeKeywords cfg)) ExcludedByKeyword ;;
  skipIf (negb (includedByKeyword text (includeKeywords cfg))) NoIncludeKeyword ;;
  skipIf (avg <? avgViewsMin cfg) AvgViewsBelowMin ;;
  skipIf (aboveMax cfg avg) AvgViewsAboveMax ;;
  Go {| channelId := channelId;
        channelName := channelTitle info;
        outSubscriberCount := subscriberCount info;
        avgViews := avg;
        outSampleSize := length sample;
        shortsRatio := ratio;
        outRecentVideoWithinDays := recentVideoWithinDays cfg;
        outIncludeKeywords := includeKeywords cfg;
        outExcludeKeywords := excludeKeywords cfg;
        outCountry := channelCountry info;
        outDescription := channelDescription info;
        sampleVideos := map sampleVideoOf sample |}.

Definition verdictOf (c : Step OutputRecord) : Verdict :=
  match c with
  | Go r => Saved r
  | Stop v => v
  end.

(** The body of the [try] block of the main loop for one candidate. *)
Definition evaluateChannel (cfg : Config) (svc : Services) (channelId : string)
  : Verdict :=
  verdictOf
    ('(info, sample) ← gatherSample cfg svc channelId;
     judge cfg (now svc channelId) channelId info sample).

End Evaluator.

(** ** Candidate collection and the main loop *)

Module Pipeline.

Section Run.

Variable urlPathname : string -> option string.
Variable cfg : Config.
Variable svc : Services.

(** [candidateChannelIds.add(x)]: a [Set] keeps its elements in the order
    of their first insertion. *)
Definition setAdd (x : string) (set : list string) : list string :=
  if bool_decide (x ∈ set) then set else (set ++ [x])%list.

Definition addAll (xs : list string) (set : list string) : list string :=
  foldl (fun acc x => setAdd x acc) set xs.

(** The body of [for (const s of seedChannels)]. *)
Definition collectSeed (set : list string) (s : string) : list string :=
  match Normalizer.normalizeChannelIdOrUrl urlPathname s with
  | None => set
  | Some normalized =>
      if negb (Js.truthy normalized) then set
      else if Normalizer.isChannelId normalized then setAdd normalized set
      else addAll (discoverChannelsBySearch svc normalized 5) set
  end.

(** The body of [for (const q of searchQueries)]. *)
Definition collectQuery (set : list string) (q : string) : list string :=
  addAll (discoverChannelsBySearch svc q 50) set.

Definition candidateChannelIds : list string :=
  foldl collectQuery (foldl collectSeed [] (seedChannels cfg)) (searchQueries cfg).

(** [Array.from(candidateChannelIds).slice(0, Math.max(maxChannels, 0))] *)
Definition channelIdsArray : list string :=
  Js.slice0 candidateChannelIds (Z.max (maxChannels cfg) 0).

(** The mutable state of the main loop. *)
Record LoopState : Type := {
  results : list OutputRecord;
  processed : gset string
}.

Definition initialState : LoopState := {| results := []; processed := ∅ |}.

(** One iteration of the main loop on [channelId]. *)
Definition loopBody (channelId : string) (st : LoopState) : LoopState :=
  if bool_decide (channelId ∈ processed st) then st
  else
    let processed' := {[channelId]} ∪ processed st in
    match Evaluator.evaluateChannel cfg svc channelId with
    | Saved record =>
        {| results := (results st ++ [record])%list; processed := processed' |}
    | Skipped _ | Failed =>
        {| results := results st; processed := processed' |}
    end.

(** [idx < channelIdsArray.length && results.length < maxChannels], on the
    ids from [idx] on. *)
Definition loopGuard (pending : list string) (st : LoopState) : bool :=
  bool_decide (pending ≠ []) && (Z.of_nat (length (results st)) <? maxChannels cfg).

(** The main [for] loop over the ids that are left. *)
Fixpoint evaluationLoop (pending : list string) (st : LoopState) : LoopState :=
  match pending with
  | [] => st
  | channelId :: rest =>
      if loopGuard pending st then evaluationLoop rest (loopBody channelId st)
      else st
  end.

(** One iteration as a transition between the points of the run. *)
Inductive iteration : list string * LoopState -> list string * LoopState -> Prop :=
| iteration_intro channelId rest st :
    loopGuard (channelId :: rest) st = true ->
    iteration (channelId :: rest, st) (rest, loopBody channelId st).

(** The points a run goes through. *)
Definition reachable (p : list string * LoopState) : Prop :=
  rtc iteration (channelIdsArray, initialState) p.

(** The results of the run. *)
Definition run : list OutputRecord :=
  results (evaluationLoop channelIdsArray initialState).

End Run.

End Pipeline.

(** ** The shorts classification in the words of the specification *)

Module SpecWords.

(** "duration strictly under 60 seconds OR title containing the substring
    short, case-insensitive" *)
Definition specShortFlag (v : Video.t) : bool :=
  (Evaluator.durationOf v <? 60) || Js.includes (Evaluator.lowerTitleOf v) "short".

(** "fraction of sample videos classified short" *)
Definition specShortsRatio (sample : list Video.t) : Q :=
  match sample with
  | [] => 0%Q
  | _ => Z.of_nat (length (List.filter specShortFlag sample)) # Pos.of_nat (length sample)
  end.

End SpecWords.

(** ** Concrete inputs used by the examples below *)

Module Fixtures.

Definition day : Z := 24 * 3600 * 1000.

(** The clock of the examples: day 1000 after the epoch. *)
Definition today : Z := 1000 * day.

Definition video (vid title : string) (daysAgo : Z) (views duration : string)
  : Video.t :=
  {| Video.id := vid;
     Video.snippet :=
       Some {| Video.title := Some title;
               Video.description := Some "";
               Video.publishedAt := today - daysAgo * day |};
     Video.statistics := Some {| Video.viewCount := Some views |};
     Video.contentDetails := Some {| Video.duration := Some duration |} |}.

Definition channel (title description subscribers : string) : Channel.t :=
  {| Channel.snippet :=
       Some {| Channel.title := Some title;
               Channel.description := Some description;
               Channel.country := None |};
     Channel.statistics :=
       Some {| Channel.hiddenSubscriberCount := false;
               Channel.subscriberCount := Some subscribers |};
     Channel.contentDetails :=
       Some {| Channel.relatedPlaylists := Some {| Channel.uploads := Some "UU1" |} |} |}.

(** A world with one channel whose uploads are [videos]. *)
Definition world (ch : Channel.t) (videos : list Video.t) : Services :=
  {| getChannelsDetails := fun _ => Some [ch];
     getPlaylistVideoIds := fun _ _ => map Video.id videos;
     getVideosDetails := fun _ => videos;
     discoverChannelsBySearch := fun _ _ => [];
     now := fun _ => today |}.

Definition seedId : string := "UCabcdefghijklmnopqrstuv".

Definition baseConfig : Config :=
  {| minSubscribers := 10000;
     avgViewsMin := 5000;
     avgViewsMax := Some 20000;
     recentVideoWithinDays := 30;
     sampleSize := 12;
     allowShorts := false;
     includeKeywords := [KwString "coach"];
     excludeKeywords := [KwString "guru"];
     country := "";
     maxChannels := 200;
     seedChannels := [seedId];
     searchQueries := [] |}.

(** The same filters with the recency check switched off. *)
Definition noRecencyConfig : Config :=
  {| minSubscribers := 10000;
     avgViewsMin := 5000;
     avgViewsMax := Some 20000;
     recentVideoWithinDays := 0;
     sampleSize := 12;
     allowShorts := false;
     includeKeywords := [KwString "coach"];
     excludeKeywords := [KwString "guru"];
     country := "";
     maxChannels := 200;
     seedChannels := [seedId];
     searchQueries := [] |}.

Definition coachChannel : Channel.t :=
  channel "Ann" "Business Coach for founders" "50000".



(** One video whose duration parses to 0 seconds. *)
Definition zeroDurationSample : list Video.t :=
  [ video "v0" "Intro" 1 "100" "PT0S" ].

(** Five videos, two of them under a minute. *)
Definition twoOfFiveShort : list Video.t :=
  [ video "s1" "Tip" 1 "100" "PT30S";
    video "s2" "Teaser" 2 "100" "PT59S";
    video "l1" "Lesson one" 3 "100" "PT10M";
    video "l2" "Lesson two" 4 "100" "PT1M";
    video "l3" "Lesson three" 5 "100" "PT1H2M3S" ].

Definition coachVideos : list Video.t :=
  [ video "v1" "Pricing" 5 "8000" "PT10M";
    video "v2" "Hiring" 40 "8000" "PT12M30S";
    video "v3" "Planning" 100 "8000" "PT1H" ].

Definition playlistItem (vid : string) : Playlist.PlaylistItem :=
  {| Playlist.itemContentDetails := Some {| Playlist.videoId := Some vid |} |}.

(** An uploads playlist of three videos served in two pages. *)
Definition twoPages (maxResults : Z) (pageToken : option string) : Playlist.PageResult :=
  match pageToken with
  | None =>
      Playlist.PageJson
        {| Playlist.items := Some [playlistItem "v1"; playlistItem "v2"];
           Playlist.nextPageToken := Some "page2" |}
  | Some _ =>
      Playlist.PageJson
        {| Playlist.items := Some [playlistItem "v3"];
           Playlist.nextPageToken := None |}
  end.

(** A URL constructor that rejects every input; the examples that use it
    pass it strings without a scheme only. *)
Definition noURL (s : string) : option string := None.

End Fixtures.

(** ** The entry check of the actor *)

Module Actor.


End Actor.

(** ** Durations as the API writes them *)

Module DurationText.

(** A string of decimal digits. *)
Definition allDigits (s : string) : Prop :=
  forall c, In c (list_ascii_of_string s) -> Js.isDigit c = true.

(** The decimal digits of a number. *)
Definition decimal (n : nat) : string :=
  DecimalString.NilZero.string_of_uint (Nat.to_uint n).

(** One designator of a duration: the number and its unit letter, or
    nothing when the designator is left out. *)
Definition designator (n : option nat) (unit : string) : string :=
  match n with
  | Some k => decimal k ++ unit
  | None => ""
  end.

(** The time part of an ISO 8601 duration: [PT], then the hours, minutes
    and seconds that are present. *)
Definition formatDuration (h m s : option nat) : string :=
  "PT" ++ designator h "H" ++ designator m "M" ++ designator s "S".


End DurationText.

(** ** A server that pages a playlist *)

Module PlaylistServer.

(** The continuation token that stands for the page of index [i]. *)
Definition tokenOf (i : nat) : string := DurationText.decimal i.

Definition indexOf (token : string) : nat := Z.to_nat (Js.digitsValue 0 token).

(** The answers of a server that holds the playlist as the pages [pages]:
    it answers a request without token with the first page, a request with
    the token of page [i] with that page, and announces a next page as long
    as there is one. It returns its pages whole, whatever [maxResults] is. *)
Definition serve (pages : list (list Playlist.PlaylistItem))
  (maxResults : Z) (pageToken : option string) : Playlist.PageResult :=
  let i := match pageToken with
           | Some token => indexOf token
           | None => O
           end in
  match pages !! i with
  | Some its =>
      Playlist.PageJson
        {| Playlist.items := Some its;
           Playlist.nextPageToken :=
             if (S i <? length pages)%nat then Some (tokenOf (S i)) else None |}
  | None => Playlist.PageThrows
  end.

(** The token under which the page of index [i] is asked for. *)
Definition askedWith (i : nat) (token : option string) : Prop :=
  match token with
  | None => i = O
  | Some t => t = tokenOf i
  end.

(** The video ids of the playlist, in order. *)
Definition videoIds (pages : list (list Playlist.PlaylistItem)) : list string :=
  omap Playlist.itemVideoId (concat pages).

End PlaylistServer.

(** ** The other API wrappers *)

Module Fetchers.

(** An item of [search.list]. *)
Record SearchSnippet : Type := { snippetChannelId : option string }.

Record SearchId : Type := { idChannelId : option string }.

Record SearchItem : Type := {
  searchSnippet : option SearchSnippet;
  searchId : option SearchId
}.

Record SearchResponse : Type := { searchItems : option (list SearchItem) }.

Record ChannelsResponse : Type := { channelItems : option (list Channel.t) }.

Record VideosResponse : Type := { videoItems : option (list Video.t) }.

(** [it.snippet?.channelId || it?.id?.channelId], kept when truthy. *)
Definition itemChannelId (it : SearchItem) : option string :=
  let fromSnippet := searchSnippet it ≫= snippetChannelId in
  let channelId :=
    if Js.truthyOpt fromSnippet then fromSnippet else searchId it ≫= idChannelId in
  if Js.truthyOpt channelId then channelId else None.

(** [discoverChannelsBySearch(query, maxResults)]; [request query n] is how
    [youtubeApiRequest('search', {q: query, maxResults: n, ...})] ends. *)
Definition discoverChannelsBySearch
  (request : string -> Z -> ApiClient.Completion SearchResponse)
  (query : string) (maxResults : Z) : list string :=
  match request query (Z.min maxResults 50) with
  | ApiClient.Returned resp =>
      match searchItems resp with
      | Some its => omap itemChannelId its
      | None => []
      end
  | ApiClient.ReturnedUndefined => []
  | ApiClient.Thrown _ => []          (* caught and logged *)
  end.

(** [getChannelsDetails(channelIds)]; [None] when the call throws, which it
    does when the request throws and when the request returns [undefined]
    ([resp.items] is then a TypeError). *)
Definition getChannelsDetails
  (request : list string -> ApiClient.Completion ChannelsResponse)
  (channelIds : list string) : option (list Channel.t) :=
  match channelIds with
  | [] => Some []
  | _ =>
      match request channelIds with
      | ApiClient.Returned resp => Some (default [] (channelItems resp))
      | ApiClient.ReturnedUndefined => None
      | ApiClient.Thrown _ => None
      end
  end.

(** What one [videos.list] request adds to [all]: its items, or nothing when
    the request throws (the [catch] logs it) or returns nothing usable. *)
Definition delivered (c : ApiClient.Completion VideosResponse) : list Video.t :=
  match c with
  | ApiClient.Returned resp => default [] (videoItems resp)
  | ApiClient.ReturnedUndefined => []
  | ApiClient.Thrown _ => []
  end.

Section Videos.

(** How the request for the details of a chunk of ids ends. *)
Variable request : list string -> ApiClient.Completion VideosResponse.
Variable videoIds : list string.

(** The loop [for (let i = 0; i < videoIds.length; i += chunkSize)], with
    the chunks asked for so far and the videos gathered so far. *)
Fixpoint chunkLoop (fuel : nat) (i : nat) (asked : list (list string))
  (all : list Video.t) : option (list (list string) * list Video.t) :=
  match fuel with
  | O => None
  | S fuel' =>
      if (i <? length videoIds)%nat then
        let chunk := take 50 (drop i videoIds) in
        chunkLoop fuel' (i + 50) (asked ++ [chunk])%list
          (all ++ delivered (request chunk))%list
      else Some (asked, all)
  end.

(** [getVideosDetails(videoIds)], with the chunks it asked for. *)
Definition getVideosDetails : option (list (list string) * list Video.t) :=
  chunkLoop (S (length videoIds)) 0 [] [].

End Videos.

End Fetchers.

(** ** Further concrete inputs *)

Module MoreFixtures.

(** A channel that hides its subscriber count. *)
Definition hiddenChannel : Channel.t :=
  {| Channel.snippet :=
       Some {| Channel.title := Some "Ann";
               Channel.description := Some "Business Coach for founders";
               Channel.country := None |};
     Channel.statistics :=
       Some {| Channel.hiddenSubscriberCount := true;
               Channel.subscriberCount := None |};
     Channel.contentDetails :=
       Some {| Channel.relatedPlaylists := Some {| Channel.uploads := Some "UU1" |} |} |}.

(** The filters of [Fixtures.baseConfig] with a country. *)
Definition germanConfig : Config :=
  {| minSubscribers := 10000;
     avgViewsMin := 5000;
     avgViewsMax := Some 20000;
     recentVideoWithinDays := 30;
     sampleSize := 12;
     allowShorts := false;
     includeKeywords := [KwString "coach"];
     excludeKeywords := [KwString "guru"];
     country := "DE";
     maxChannels := 200;
     seedChannels := [Fixtures.seedId];
     searchQueries := [] |}.

(** Two seeds given three times in all, with room for both channels. *)
Definition twoSeedsConfig : Config :=
  {| minSubscribers := 10000;
     avgViewsMin := 5000;
     avgViewsMax := Some 20000;
     recentVideoWithinDays := 30;
     sampleSize := 12;
     allowShorts := false;
     includeKeywords := [KwString "coach"];
     excludeKeywords := [KwString "guru"];
     country := "";
     maxChannels := 200;
     seedChannels :=
       [Fixtures.seedId; "UCzyxwvutsrqponmlkjihgfe"; " UCabcdefghijklmnopqrstuv "];
     searchQueries := [] |}.

(** The same seeds with room for one channel only. *)
Definition oneOfTwoConfig : Config :=
  {| minSubscribers := 10000;
     avgViewsMin := 5000;
     avgViewsMax := Some 20000;
     recentVideoWithinDays := 30;
     sampleSize := 12;
     allowShorts := false;
     includeKeywords := [KwString "coach"];
     excludeKeywords := [KwString "guru"];
     country := "";
     maxChannels := 1;
     seedChannels :=
       [Fixtures.seedId; "UCzyxwvutsrqponmlkjihgfe"; " UCabcdefghijklmnopqrstuv "];
     searchQueries := [] |}.

(** Services whose channel lookup goes through [Fetchers.getChannelsDetails]
    and whose request ends without a value, as after a rate-limited last
    attempt. *)
Definition rateLimitedWorld : Services :=
  {| getChannelsDetails :=
       fun cid => Fetchers.getChannelsDetails (fun _ => ApiClient.ReturnedUndefined) [cid];
     getPlaylistVideoIds := fun _ _ => [];
     getVideosDetails := fun _ => [];
     discoverChannelsBySearch := fun _ _ => [];
     now := fun _ => Fixtures.today |}.

End MoreFixtures.

(** ** The record a candidate contributes *)

Module Outcome.

(** The record that the evaluation of [cid] saves, if it saves one. *)
Definition savedOf (cfg : Config) (svc : Services) (cid : string) : option OutputRecord :=
  match Evaluator.evaluateChannel cfg svc cid with
  | Saved r => Some r
  | Skipped _ | Failed => None
  end.

End Outcome.

(** * Properties *)

(** ** Sanity checks of the primitives *)

Example primitives_examples :
  Duration.isoDurationToSeconds "PT1H2M30S" = 3750 /\
  Duration.isoDurationToSeconds "PT45S" = 45 /\
  Duration.isoDurationToSeconds "" = 0 /\
  Duration.isoDurationToSeconds "bogus" = 0 /\
  Js.trim "  a b  " = "a b" /\
  Js.split "/" "/channel/UCx" = [""; "channel"; "UCx"] /\
  Js.parseInt "12ab" = Js.Int 12 /\
  Js.parseInt "x" = Js.NaN /\
  Js.includes "hello world" "o w" = true /\
  Js.slice0 [1; 2; 3] (-1) = [1; 2].
Proof. repeat split; reflexivity. Qed.

(** ** Facts about the string primitives *)

Lemma string_app_nil_l (s : string) : "" ++ s = s.
Proof. reflexivity. Qed.

Lemma string_app_cons (c : ascii) (a b : string) : String c a ++ b = String c (a ++ b).
Proof. reflexivity. Qed.

Lemma string_app_nil_r (s : string) : s ++ "" = s.
Proof.
  induction s as [|c s IH]; [reflexivity|]. rewrite string_app_cons. now f_equal.
Qed.

Lemma string_app_assoc (a b c : string) : (a ++ b) ++ c = a ++ (b ++ c).
Proof.
  induction a as [|x a IH]; [reflexivity|]. rewrite !string_app_cons. now f_equal.
Qed.

Lemma toLowerCase_app (a b : string) :
  Js.toLowerCase (a ++ b) = Js.toLowerCase a ++ Js.toLowerCase b.
Proof.
  induction a as [|x a IH]; [reflexivity|].
  rewrite string_app_cons. cbn [Js.toLowerCase]. rewrite string_app_cons. now f_equal.
Qed.

Lemma prefix_spec (p s : string) :
  String.prefix p s = true <-> exists post, s = p ++ post.
Proof.
  revert s. induction p as [|x p IH]; intros s.
  - destruct s; cbn [String.prefix]; split; eauto.
  - destruct s as [|y s]; cbn [String.prefix].
    + split; [discriminate|]. intros (post & Hpost). discriminate.
    + destruct (ascii_dec x y) as [->|Hne].
      * rewrite IH. split; intros (post & Hpost); exists post.
        -- rewrite string_app_cons. congruence.
        -- rewrite string_app_cons in Hpost. congruence.
      * split; [discriminate|]. intros (post & Hpost).
        rewrite string_app_cons in Hpost. congruence.
Qed.

(** [includes] is the substring test. *)
Lemma includes_spec (s sub : string) :
  Js.includes s sub = true <-> exists pre post, s = pre ++ sub ++ post.
Proof.
  split.
  - induction s as [|c r IH]; cbn [Js.includes].
    + destruct (String.prefix sub "") eqn:Hp; [|discriminate].
      intros _. apply prefix_spec in Hp as (post & Hpost). now exists "", post.
    + destruct (String.prefix sub (String c r)) eqn:Hp.
      * intros _. apply prefix_spec in Hp as (post & Hpost). now exists "", post.
      * intros H. destruct (IH H) as (pre & post & ->). now exists (String c pre), post.
  - intros (pre & post & ->). induction pre as [|c pre IH].
    + rewrite string_app_nil_l. assert (String.prefix sub (sub ++ post) = true) as Hp.
      { apply prefix_spec. now exists post. }
      destruct (sub ++ post); cbn [Js.includes]; now rewrite Hp.
    + rewrite string_app_cons. cbn [Js.includes].
      destruct (String.prefix sub _); [reflexivity|exact IH].
Qed.

Lemma includes_inside (pre s post sub : string) :
  Js.includes s sub = true -> Js.includes (pre ++ s ++ post) sub = true.
Proof.
  rewrite !includes_spec. intros (a & b & ->).
  exists (pre ++ a), (b ++ post). now rewrite !string_app_assoc.
Qed.

(** Each part is a substring of the joined text. *)
Lemma join_part (sep part : string) (parts : list string) :
  In part parts -> exists pre post, Js.join sep parts = pre ++ part ++ post.
Proof.
  induction parts as [|p rest IH]; [intros []|].
  intros [->|Hin].
  - destruct rest as [|q rest].
    + exists "", "". cbn [Js.join]. now rewrite string_app_nil_l, string_app_nil_r.
    + now exists "", (sep ++ Js.join sep (q :: rest)).
  - destruct (IH Hin) as (pre & post & Hjoin). destruct rest as [|q rest]; [destruct Hin|].
    exists (p ++ sep ++ pre), post.
    change (Js.join sep (p :: q :: rest)) with (p ++ sep ++ Js.join sep (q :: rest)).
    rewrite Hjoin. now rewrite !string_app_assoc.
Qed.

(** ** Identifier normalizer *)

Section NormalizerFacts.

Variable urlPathname : string -> option string.

Lemma normalize_empty : Normalizer.normalizeChannelIdOrUrl urlPathname "" = None.
Proof. reflexivity. Qed.

(** A canonical id comes back unchanged. *)
Lemma normalize_canonical (s : string) :
  Normalizer.isChannelId (Js.trim s) = true ->
  Normalizer.normalizeChannelIdOrUrl urlPathname s = Some (Js.trim s).
Proof.
  intros Hid. unfold Normalizer.normalizeChannelIdOrUrl.
  destruct s as [|c s']; [discriminate Hid|]. cbn [Js.truthy negb].
  now rewrite Hid.
Qed.

(** On a non-empty string the normalizer returns a string, whatever the URL
    constructor does. *)
Lemma normalize_total (item : string) :
  Js.truthy item = true ->
  exists r, Normalizer.normalizeChannelIdOrUrl urlPathname item = Some r.
Proof.
  intros Ht. unfold Normalizer.normalizeChannelIdOrUrl. rewrite Ht. cbn [negb].
  destruct (Normalizer.isChannelId (Js.trim item)); [eauto|].
  destruct (urlPathname (Js.trim item)) as [pathname|]; [|eauto].
  destruct (List.filter Js.truthy (Js.split "/" pathname)) as [|p0 [|p1 ps]]; eauto.
  destruct (String.eqb p0 "channel" && Js.truthy p1); eauto.
Qed.

End NormalizerFacts.




(** ** API client: the retry loop *)

Section RetryFacts.

Variable Json : Type.
Variable script : Z -> ApiClient.FetchOutcome Json.
Variable maxRetries : Z.
Hypothesis maxRetries_nonneg : 0 <= maxRetries.

Local Abbreviation attemptLoop := (ApiClient.attemptLoop Json script maxRetries).
Local Abbreviation rounds := ApiClient.rounds.
Local Abbreviation Ending := (ApiClient.Ending Json script maxRetries).

Lemma rounds_S (n : nat) :
  rounds (S n)
  = (rounds n ++ [ApiClient.EvFetch; ApiClient.EvSleep (1000 * 2 ^ Z.of_nat (S n))])%list.
Proof.
  unfold ApiClient.rounds. rewrite seq_S, flat_map_app. cbn [flat_map].
  now rewrite app_nil_r.
Qed.

Lemma rounds_step (a : nat) :
  ((rounds a ++ [ApiClient.EvFetch])
     ++ [ApiClient.EvSleep (ApiClient.backoff (Z.of_nat a + 1))])%list
  = rounds (S a).
Proof.
  rewrite rounds_S, <- app_assoc. cbn [app]. unfold ApiClient.backoff.
  do 4 f_equal. lia.
Qed.

Lemma Ending_weaken (a : nat) c trace :
  Ending (S a) c trace -> Z.of_nat a < maxRetries -> Ending a c trace.
Proof.
  intros H Hlt. destruct H.
  - econstructor; eauto. lia.
  - now constructor.
  - constructor. intros _. apply H. lia.
Qed.

Lemma attemptLoop_ending (d : nat) :
  forall (a fuel : nat),
    (a + d = S (Z.to_nat maxRetries))%nat -> (d < fuel)%nat ->
    exists c trace,
      attemptLoop fuel (Z.of_nat a) (rounds a) = Some (c, trace) /\ Ending a c trace.
Proof.
  induction d as [|d IH]; intros a fuel Ha Hfuel.
  - destruct fuel as [|fuel]; [lia|]. cbn [ApiClient.attemptLoop].
    destruct (Z.leb_spec (Z.of_nat a) maxRetries) as [Hle|_]; [lia|].
    exists ApiClient.ReturnedUndefined, (rounds a). split; [reflexivity|].
    replace a with (S (Z.to_nat maxRetries)) by lia.
    constructor. intros Hcontra. lia.
  - destruct fuel as [|fuel]; [lia|]. cbn [ApiClient.attemptLoop].
    destruct (Z.leb_spec (Z.of_nat a) maxRetries) as [Hle|Hgt]; [|lia].
    assert (Hnext : forall err,
      ApiClient.caught Json (script (Z.of_nat a)) = Some err ->
      exists c trace,
        ApiClient.onCatch Json maxRetries (attemptLoop fuel) (Z.of_nat a)
          (rounds a ++ [ApiClient.EvFetch])%list err = Some (c, trace)
        /\ Ending a c trace).
    { intros err Herr. unfold ApiClient.onCatch.
      destruct (Z.ltb_spec maxRetries (Z.of_nat a + 1)) as [Hlast|Hmore].
      - exists (ApiClient.Thrown err), (rounds a ++ [ApiClient.EvFetch])%list.
        split; [reflexivity|].
        assert (a = Z.to_nat maxRetries) as -> by lia.
        constructor. rewrite Z2Nat.id in Herr by lia. exact Herr.
      - rewrite rounds_step.
        replace (Z.of_nat a + 1) with (Z.of_nat (S a)) by lia.
        destruct (IH (S a) fuel) as (c & trace & Hrun & Hend); [lia|lia|].
        exists c, trace. split; [exact Hrun|]. apply Ending_weaken; [exact Hend|lia]. }
    destruct (script (Z.of_nat a)) as [message|status text|json|message] eqn:Hs.
    + apply Hnext. reflexivity.
    + destruct ((status =? 403) || (status =? 429)) eqn:Hrl.
      * rewrite rounds_step.
        replace (Z.of_nat a + 1) with (Z.of_nat (S a)) by lia.
        destruct (IH (S a) fuel) as (c & trace & Hrun & Hend); [lia|lia|].
        exists c, trace. split; [exact Hrun|].
        destruct (Z.eq_dec (Z.of_nat a) maxRetries) as [Heq|Hne].
        -- (* the last allowed attempt was rate limited *)
           destruct Hend as [k json Hk1 Hk2 _| err Herr |_].
           ++ lia.
           ++ rewrite <- Heq, Hs in Herr. cbn in Herr. rewrite Hrl in Herr. discriminate.
           ++ constructor. intros _. rewrite <- Heq, Hs. exact Hrl.
        -- apply Ending_weaken; [exact Hend|lia].
      * apply Hnext. cbn. now rewrite Hrl.
    + exists (ApiClient.Returned json), (rounds a ++ [ApiClient.EvFetch])%list.
      split; [reflexivity|]. econstructor; eauto.
    + apply Hnext. reflexivity.
Qed.

(** The call always ends, and it ends in one of the three ways of [Ending]. *)
Lemma youtubeApiRequest_ending :
  exists c trace,
    ApiClient.youtubeApiRequest Json script maxRetries = Some (c, trace)
    /\ Ending 0 c trace.
Proof.
  unfold ApiClient.youtubeApiRequest, ApiClient.requestFuel.
  apply (attemptLoop_ending (S (Z.to_nat maxRetries)) 0%nat); lia.
Qed.

End RetryFacts.

Section RetryTraces.

Local Abbreviation round := (fun i : nat => [ApiClient.EvFetch; ApiClient.EvSleep (1000 * 2 ^ Z.of_nat i)]).
Local Abbreviation delay := (fun i : nat => 1000 * 2 ^ Z.of_nat i).

Lemma retryDelays_closed (n s : nat) :
  ApiClient.retryDelays (flat_map round (seq s n) ++ [ApiClient.EvFetch])%list
  = map delay (seq s n).
Proof.
  revert s. induction n as [|n IH]; intros s; [reflexivity|].
  cbn [seq flat_map map app ApiClient.retryDelays].
  specialize (IH (S s)). destruct n as [|n]; [reflexivity|].
  cbn [seq flat_map app] in IH |- *. now rewrite IH.
Qed.

Lemma retryDelays_open (n s : nat) :
  ApiClient.retryDelays (flat_map round (seq s (S n))) = map delay (seq s n).
Proof.
  revert s. induction n as [|n IH]; intros s; [reflexivity|].
  specialize (IH (S s)).
  change (seq s (S (S n))) with (s :: seq (S s) (S n)).
  cbn [flat_map app ApiClient.retryDelays].
  cbn [seq flat_map app] in IH |- *. cbn [map]. now rewrite IH.
Qed.

Lemma fetchCount_rounds (n s : nat) (tail : list ApiClient.Event) :
  ApiClient.fetchCount (flat_map round (seq s n) ++ tail)%list
  = (n + ApiClient.fetchCount tail)%nat.
Proof.
  revert s. induction n as [|n IH]; intros s; [reflexivity|].
  unfold ApiClient.fetchCount in *. cbn [seq flat_map app List.filter ApiClient.isFetch length].
  now rewrite IH.
Qed.

(** The schedule of a call that ends the way [Ending] says. *)
Lemma Ending_schedule (Json : Type) (script : Z -> ApiClient.FetchOutcome Json)
  (maxRetries : Z) (c : ApiClient.Completion Json) (trace : list ApiClient.Event) :
  0 <= maxRetries ->
  ApiClient.Ending Json script maxRetries 0 c trace ->
  exists k : nat,
    (k <= Z.to_nat maxRetries)%nat /\
    ApiClient.fetchCount trace = S k /\
    ApiClient.retryDelays trace = map delay (seq 1 k).
Proof.
  intros Hm [k json _ Hk _|err _|_].
  - exists k. split; [lia|]. unfold ApiClient.rounds. split.
    + rewrite fetchCount_rounds. cbn. lia.
    + apply retryDelays_closed.
  - exists (Z.to_nat maxRetries). split; [lia|]. unfold ApiClient.rounds. split.
    + rewrite fetchCount_rounds. cbn. lia.
    + apply retryDelays_closed.
  - exists (Z.to_nat maxRetries). split; [lia|]. unfold ApiClient.rounds. split.
    + rewrite <- (app_nil_r (flat_map _ _)), fetchCount_rounds. cbn. lia.
    + apply retryDelays_open.
Qed.

End RetryTraces.

(** The call is total: the fuel of [youtubeApiRequest] never runs out. *)
Lemma youtubeApiRequest_total (Json : Type) (script : Z -> ApiClient.FetchOutcome Json)
  (maxRetries : Z) :
  exists c trace, ApiClient.youtubeApiRequest Json script maxRetries = Some (c, trace).
Proof.
  destruct (Z.le_gt_cases 0 maxRetries) as [Hm|Hm].
  - destruct (youtubeApiRequest_ending Json script maxRetries Hm) as (c & trace & H & _).
    eauto.
  - exists ApiClient.ReturnedUndefined, []. unfold ApiClient.youtubeApiRequest.
    cbn [ApiClient.requestFuel ApiClient.attemptLoop].
    destruct (Z.leb_spec 0 maxRetries); [lia|reflexivity].
Qed.

(** When every allowed attempt fails and the last one reaches the [catch]
    block, the call throws the error of that last attempt. *)
Lemma youtubeApiRequest_exhausted_throws_last (Json : Type)
  (script : Z -> ApiClient.FetchOutcome Json) (maxRetries : Z) (err : ApiClient.ApiError) :
  0 <= maxRetries ->
  (forall n json, 0 <= n <= maxRetries -> script n <> ApiClient.OkBody json) ->
  ApiClient.caught Json (script maxRetries) = Some err ->
  exists trace,
    ApiClient.youtubeApiRequest Json script maxRetries = Some (ApiClient.Thrown err, trace).
Proof.
  intros Hm Hfail Hlast.
  destruct (youtubeApiRequest_ending Json script maxRetries Hm) as (c & trace & Hrun & Hend).
  exists trace. rewrite Hrun. destruct Hend as [k json _ Hk Hok|err' Herr|Hrl].
  - exfalso. apply (Hfail (Z.of_nat k) json); [lia|exact Hok].
  - congruence.
  - exfalso. specialize (Hrl ltac:(lia)).
    destruct (script maxRetries) as [m|status text|json|m]; cbn in *; try discriminate.
    rewrite Hrl in Hlast. discriminate.
Qed.

(** C2 (the code at the failing inputs): when every allowed attempt is
    answered with status 403 or 429, the call does not throw: it leaves the
    loop and returns [undefined]. *)
Theorem youtubeApiRequest_rate_limited_returns_undefined (Json : Type)
  (script : Z -> ApiClient.FetchOutcome Json) (maxRetries : Z) :
  0 <= maxRetries ->
  (forall n, 0 <= n <= maxRetries ->
     exists status text,
       script n = ApiClient.NotOk status text /\ (status = 403 \/ status = 429)) ->
  exists trace,
    ApiClient.youtubeApiRequest Json script maxRetries
    = Some (ApiClient.ReturnedUndefined, trace).
Proof.
  intros Hm Hall.
  destruct (youtubeApiRequest_ending Json script maxRetries Hm) as (c & trace & Hrun & Hend).
  exists trace. rewrite Hrun. destruct Hend as [k json _ Hk Hok|err Herr|_].
  - exfalso. destruct (Hall (Z.of_nat k)) as (status & text & Hs & _); [lia|]. congruence.
  - exfalso. destruct (Hall maxRetries) as (status & text & Hs & Hst); [lia|].
    rewrite Hs in Herr. cbn in Herr.
    destruct Hst as [-> | ->]; cbn in Herr; discriminate.
  - reflexivity.
Qed.

Lemma youtubeApiRequest_rate_limited_returns_undefined_witness :
  exists trace,
    ApiClient.youtubeApiRequest unit (fun _ => ApiClient.NotOk 429 "quotaExceeded")
      ApiClient.defaultMaxRetries
    = Some (ApiClient.ReturnedUndefined, trace).
Proof.
  apply (youtubeApiRequest_rate_limited_returns_undefined unit
           (fun _ => ApiClient.NotOk 429 "quotaExceeded") ApiClient.defaultMaxRetries).
  - unfold ApiClient.defaultMaxRetries. lia.
  - intros n _. exists 429, "quotaExceeded". split; [reflexivity|right; reflexivity].
Defined.

(** C4 (as amended): a call makes at most [maxRetries] retries after its
    first fetch (3 by default), and the wait before the [n]-th retry lasts
    [1000 * 2 ^ n] milliseconds: 2 s, 4 s and 8 s before the first, second
    and third retry. *)
Theorem retry_backoff_schedule (Json : Type)
  (script : Z -> ApiClient.FetchOutcome Json) (maxRetries : Z) :
  0 <= maxRetries ->
  exists c trace (k : nat),
    ApiClient.youtubeApiRequest Json script maxRetries = Some (c, trace) /\
    (k <= Z.to_nat maxRetries)%nat /\
    ApiClient.fetchCount trace = S k /\
    ApiClient.retryDelays trace = map (fun n : nat => 1000 * 2 ^ Z.of_nat n) (seq 1 k).
Proof.
  intros Hm.
  destruct (youtubeApiRequest_ending Json script maxRetries Hm) as (c & trace & Hrun & Hend).
  destruct (Ending_schedule Json script maxRetries c trace Hm Hend) as (k & Hk & Hf & Hd).
  exists c, trace, k. auto.
Qed.

Lemma retry_backoff_schedule_witness :
  exists c trace (k : nat),
    ApiClient.youtubeApiRequest unit (fun _ => ApiClient.FetchRejects "ECONNRESET")
      ApiClient.defaultMaxRetries = Some (c, trace) /\
    (k <= Z.to_nat ApiClient.defaultMaxRetries)%nat /\
    ApiClient.fetchCount trace = S k /\
    ApiClient.retryDelays trace = map (fun n : nat => 1000 * 2 ^ Z.of_nat n) (seq 1 k).
Proof.
  apply (retry_backoff_schedule unit (fun _ => ApiClient.FetchRejects "ECONNRESET")
           ApiClient.defaultMaxRetries).
  unfold ApiClient.defaultMaxRetries. lia.
Defined.

(** C4 (as stated) fails: when every attempt is rejected, the three retries
    of a default call are preceded by waits of 2 s, 4 s and 8 s, not of 1 s,
    2 s and 4 s. *)
Lemma retry_first_wait_is_two_seconds :
  (let '(_, trace) :=
     default (ApiClient.ReturnedUndefined, [])
       (ApiClient.youtubeApiRequest unit (fun _ => ApiClient.FetchRejects "ECONNRESET")
          ApiClient.defaultMaxRetries) in
   ApiClient.retryDelays trace) = [2000; 4000; 8000]
  /\ [2000; 4000; 8000] <> [1000; 2000; 4000].
Proof. split; [vm_compute; reflexivity|discriminate]. Qed.

Example retry_examples :
  ApiClient.youtubeApiRequest unit (fun _ => ApiClient.NotOk 429 "quotaExceeded") 3
  = Some (ApiClient.ReturnedUndefined,
          [ApiClient.EvFetch; ApiClient.EvSleep 2000; ApiClient.EvFetch;
           ApiClient.EvSleep 4000; ApiClient.EvFetch; ApiClient.EvSleep 8000;
           ApiClient.EvFetch; ApiClient.EvSleep 16000])
  /\ ApiClient.youtubeApiRequest unit (fun _ => ApiClient.NotOk 500 "boom") 3
     = Some (ApiClient.Thrown (ApiClient.HttpError 500 "boom"),
             [ApiClient.EvFetch; ApiClient.EvSleep 2000; ApiClient.EvFetch;
              ApiClient.EvSleep 4000; ApiClient.EvFetch; ApiClient.EvSleep 8000;
              ApiClient.EvFetch])
  /\ ApiClient.youtubeApiRequest unit
       (fun n => if n <? 1 then ApiClient.NotOk 429 "quotaExceeded" else ApiClient.OkBody tt) 3
     = Some (ApiClient.Returned tt,
             [ApiClient.EvFetch; ApiClient.EvSleep 2000; ApiClient.EvFetch]).
Proof. repeat split; vm_compute; reflexivity. Qed.

(** ** API client: the uploads playlist *)

Section PlaylistFacts.

Variable request : Z -> option string -> Playlist.PageResult.
Variable limit : Z.

Local Abbreviation pushItems := (Playlist.pushItems limit).
Local Abbreviation pageLoop := (Playlist.pageLoop request limit).

(** The inner loop adds ids one at a time and stops at the limit. *)
Lemma pushItems_length (its : list Playlist.PlaylistItem) (ids : list string) :
  Z.of_nat (length ids) < limit ->
  (length ids <= length (pushItems its ids))%nat /\
  Z.of_nat (length (pushItems its ids)) <= limit.
Proof.
  revert ids. induction its as [|it rest IH]; intros ids Hlt; cbn [Playlist.pushItems].
  - lia.
  - set (ids' := match Playlist.itemVideoId it with
                 | Some v => (ids ++ [v])%list
                 | None => ids
                 end).
    assert (length ids <= length ids' <= S (length ids))%nat as Hlen.
    { subst ids'. destruct (Playlist.itemVideoId it); [rewrite length_app; cbn|]; lia. }
    destruct (Z.geb_spec (Z.of_nat (length ids')) limit) as [Hge|Hlt'].
    + lia.
    + destruct (IH ids' Hlt'). lia.
Qed.

(** A page with a video id makes the list of ids grow. *)
Lemma pushItems_grows (its : list Playlist.PlaylistItem) (ids : list string) :
  Z.of_nat (length ids) < limit ->
  (exists it, In it its /\ Playlist.itemVideoId it <> None) ->
  (length ids < length (pushItems its ids))%nat.
Proof.
  revert ids. induction its as [|it rest IH]; intros ids Hlt (it' & Hin & Hvid).
  - destruct Hin.
  - cbn [Playlist.pushItems].
    set (ids' := match Playlist.itemVideoId it with
                 | Some v => (ids ++ [v])%list
                 | None => ids
                 end).
    destruct (Z.geb_spec (Z.of_nat (length ids')) limit) as [Hge|Hlt'].
    + lia.
    + destruct (pushItems_length rest ids' Hlt') as [Hmono _].
      destruct Hin as [->|Hin].
      * subst ids'. destruct (Playlist.itemVideoId it') as [v|]; [|congruence].
        rewrite length_app in Hmono. cbn in Hmono. lia.
      * assert (length ids <= length ids')%nat.
        { subst ids'. destruct (Playlist.itemVideoId it); [rewrite length_app|]; lia. }
        specialize (IH ids' Hlt' (ex_intro _ it' (conj Hin Hvid))). lia.
Qed.

Lemma pageLoop_bound (fuel : nat) :
  forall ids token out,
    Z.of_nat (length ids) < limit ->
    pageLoop fuel ids token = Some out ->
    Z.of_nat (length out) <= limit.
Proof.
  induction fuel as [|fuel IH]; intros ids token out Hlt Hrun; [discriminate|].
  cbn [Playlist.pageLoop] in Hrun.
  destruct (request _ _) as [resp| |]; try (injection Hrun as <-; lia).
  destruct (pushItems_length (default [] (Playlist.items resp)) ids Hlt) as [_ Hle].
  destruct (Js.truthyOpt (Playlist.nextPageToken resp)); cbn [andb] in Hrun.
  - destruct (Z.ltb_spec (Z.of_nat (length (pushItems (default [] (Playlist.items resp)) ids))) limit).
    + eapply IH; eauto.
    + injection Hrun as <-. lia.
  - injection Hrun as <-. lia.
Qed.

(** Against a productive playlist the loop ends within [limit] pages. *)
Lemma pageLoop_terminates (fuel : nat) :
  Playlist.productive request ->
  forall ids token,
    Z.of_nat (length ids) < limit ->
    limit - Z.of_nat (length ids) <= Z.of_nat fuel ->
    exists out, pageLoop fuel ids token = Some out.
Proof.
  intros Hprod. induction fuel as [|fuel IH]; intros ids token Hlt Hfuel; [lia|].
  cbn [Playlist.pageLoop].
  destruct (request _ _) as [resp| |] eqn:Hreq; eauto.
  destruct (Js.truthyOpt (Playlist.nextPageToken resp)) eqn:Htok; cbn [andb]; eauto.
  destruct (Z.ltb_spec (Z.of_nat (length (pushItems (default [] (Playlist.items resp)) ids))) limit);
    eauto.
  apply IH; [assumption|].
  pose proof (pushItems_grows (default [] (Playlist.items resp)) ids Hlt
                (Hprod _ _ _ Hreq Htok)).
  lia.
Qed.

(** When every request is answered and the loop returns fewer ids than the
    limit, some answered page carried no continuation token. *)
Lemma pageLoop_short_means_exhausted (fuel : nat) :
  (forall maxResults token, exists resp, request maxResults token = Playlist.PageJson resp) ->
  forall ids token out,
    pageLoop fuel ids token = Some out ->
    Z.of_nat (length out) < limit ->
    exists maxResults token' resp,
      request maxResults token' = Playlist.PageJson resp /\
      Js.truthyOpt (Playlist.nextPageToken resp) = false.
Proof.
  intros Hall. induction fuel as [|fuel IH]; intros ids token out Hrun Hshort; [discriminate|].
  cbn [Playlist.pageLoop] in Hrun.
  match type of Hrun with context [request ?n ?t] =>
    destruct (Hall n t) as [resp Hreq]; rewrite Hreq in Hrun end.
  destruct (Js.truthyOpt (Playlist.nextPageToken resp)) eqn:Htok; cbn [andb] in Hrun.
  - destruct (Z.ltb_spec (Z.of_nat (length (pushItems (default [] (Playlist.items resp)) ids))) limit).
    + eapply IH; eauto.
    + injection Hrun as <-. lia.
  - eauto.
Qed.

End PlaylistFacts.

(** C9 (as amended): for every limit of at least 1, whatever the pages hold,
    a fetch that returns gives at most [limit] video ids; against a playlist
    whose pages with a continuation token are never empty the fetch returns
    after at most [limit] pages; and a fetch whose requests are all answered
    returns fewer than [limit] ids only if a page came without continuation
    token. *)
Theorem getPlaylistVideoIds_at_most_limit
  (request : Z -> option string -> Playlist.PageResult) (limit : Z) :
  1 <= limit ->
  (forall fuel ids,
     Playlist.getPlaylistVideoIds request limit fuel = Some ids ->
     Z.of_nat (length ids) <= limit) /\
  (Playlist.productive request ->
   exists ids,
     Playlist.getPlaylistVideoIds request limit (Z.to_nat limit) = Some ids /\
     Z.of_nat (length ids) <= limit) /\
  (forall fuel ids,
     (forall maxResults token, exists resp, request maxResults token = Playlist.PageJson resp) ->
     Playlist.getPlaylistVideoIds request limit fuel = Some ids ->
     Z.of_nat (length ids) < limit ->
     exists maxResults token resp,
       request maxResults token = Playlist.PageJson resp /\
       Js.truthyOpt (Playlist.nextPageToken resp) = false).
Proof.
  intros Hlimit. unfold Playlist.getPlaylistVideoIds. repeat split.
  - intros fuel ids Hrun. eapply pageLoop_bound; [|exact Hrun]. cbn. lia.
  - intros Hprod.
    destruct (pageLoop_terminates request limit (Z.to_nat limit) Hprod [] None) as [out Hout];
      [cbn; lia|cbn; lia|].
    exists out. split; [exact Hout|]. eapply pageLoop_bound; [|exact Hout]. cbn. lia.
  - intros fuel ids Hall Hrun Hshort.
    eapply pageLoop_short_means_exhausted; eauto.
Qed.

Lemma getPlaylistVideoIds_at_most_limit_witness :
  Playlist.getPlaylistVideoIds Fixtures.twoPages 2 5 = Some ["v1"; "v2"] /\
  Z.of_nat (length ["v1"; "v2"]) <= 2.
Proof.
  split; [reflexivity|].
  apply (proj1 (getPlaylistVideoIds_at_most_limit Fixtures.twoPages 2 ltac:(lia)) 5%nat).
  reflexivity.
Defined.

(** C9 (as stated) fails for the limit 0: the first page is always fetched
    and the cap is tested after an id has been pushed. *)
Lemma getPlaylistVideoIds_limit_zero_returns_one :
  Playlist.getPlaylistVideoIds Fixtures.twoPages 0 1 = Some ["v1"] /\
  ~ Z.of_nat (length ["v1"]) <= 0.
Proof. split; [reflexivity|cbn; lia]. Qed.

Example playlist_examples :
  Playlist.getPlaylistVideoIds Fixtures.twoPages 50 5 = Some ["v1"; "v2"; "v3"] /\
  Playlist.getPlaylistVideoIds Fixtures.twoPages 1 5 = Some ["v1"] /\
  Playlist.getPlaylistVideoIds (fun _ _ => Playlist.PageThrows) 5 5 = Some [].
Proof. repeat split; reflexivity. Qed.

(** ** The filter chain *)

Section JudgeFacts.

Variable cfg : Config.
Variable nowMs : Z.
Variable cid : string.
Variable info : Evaluator.ChannelInfo.
Variable sample : list Video.t.

Local Abbreviation judged := (Evaluator.judge cfg nowMs cid info sample).
Local Abbreviation text := (Evaluator.combinedText info sample).
Local Abbreviation avg := (Evaluator.computeAvgViews sample).
Local Abbreviation ratio := (Evaluator.computeShortsRatio sample).

Lemma skipIf_false (why : SkipReason) : Evaluator.skipIf false why = Evaluator.Go tt.
Proof. reflexivity. Qed.

Lemma skipIf_true (why : SkipReason) :
  Evaluator.skipIf true why = Evaluator.Stop (Skipped why).
Proof. reflexivity. Qed.

Lemma someRecent_stop (threshold : Z) (l : list Video.t) (w : Verdict) :
  Evaluator.someRecent threshold l = Evaluator.Stop w -> w = Failed.
Proof.
  induction l as [|x rest IH]; cbn; [discriminate|].
  destruct (Evaluator.publishedAtOf x) as [t|]; [|now intros [= <-]].
  destruct (threshold <=? t); [discriminate|exact IH].
Qed.

(** The recency check ends the iteration only by an exception. *)
Lemma hasRecentWithin_stop (w : Verdict) :
  Evaluator.hasRecentWithin cfg nowMs sample = Evaluator.Stop w -> w = Failed.
Proof.
  unfold Evaluator.hasRecentWithin.
  destruct (negb _ && _); [apply someRecent_stop|discriminate].
Qed.

(** Which filter a [continue] of the second half of the body comes from. *)
Lemma judge_stop (v : Verdict) :
  judged = Evaluator.Stop v ->
  match v with
  | Failed => Evaluator.hasRecentWithin cfg nowMs sample = Evaluator.Stop Failed
  | Skipped NoRecentVideoWithin =>
      Evaluator.hasRecentWithin cfg nowMs sample = Evaluator.Go false
  | Skipped ShortsPresent => allowShorts cfg = false /\ Evaluator.positive ratio = true
  | Skipped ExcludedByKeyword => Evaluator.excluded text (excludeKeywords cfg) = true
  | Skipped NoIncludeKeyword =>
      Evaluator.includedByKeyword text (includeKeywords cfg) = false
  | Skipped AvgViewsBelowMin => avg < avgViewsMin cfg
  | Skipped AvgViewsAboveMax => Evaluator.aboveMax cfg avg = true
  | Saved _ | Skipped _ => False
  end.
Proof.
  unfold Evaluator.judge, mbind, Evaluator.step_bind.
  destruct (Evaluator.hasRecentWithin cfg nowMs sample) as [[|]|w] eqn:Hrecent; cbn [negb].
  2: { rewrite skipIf_true. intros [= <-]. reflexivity. }
  2: { intros [= <-]. rewrite (hasRecentWithin_stop _ Hrecent). reflexivity. }
  rewrite skipIf_false.
  destruct (allowShorts cfg) eqn:Hallow, (Evaluator.positive ratio) eqn:Hpos; cbn [negb andb];
    rewrite ?skipIf_false, ?skipIf_true; try (intros [= <-]; split; reflexivity).
  all: destruct (Evaluator.excluded text (excludeKeywords cfg)) eqn:Hex;
    rewrite ?skipIf_false, ?skipIf_true; try (intros [= <-]; reflexivity).
  all: destruct (Evaluator.includedByKeyword text (includeKeywords cfg)) eqn:Hin; cbn [negb];
    rewrite ?skipIf_false, ?skipIf_true; try (intros [= <-]; reflexivity).
  all: destruct (Z.ltb_spec avg (avgViewsMin cfg));
    rewrite ?skipIf_false, ?skipIf_true; try (intros [= <-]; assumption).
  all: destruct (Evaluator.aboveMax cfg avg) eqn:Hmax;
    rewrite ?skipIf_false, ?skipIf_true; try (intros [= <-]; reflexivity).
  all: discriminate.
Qed.

(** What a saved record has passed. *)
Lemma judge_go (r : OutputRecord) :
  judged = Evaluator.Go r ->
  Evaluator.hasRecentWithin cfg nowMs sample = Evaluator.Go true /\
  (allowShorts cfg = true \/ Evaluator.positive ratio = false) /\
  Evaluator.excluded text (excludeKeywords cfg) = false /\
  Evaluator.includedByKeyword text (includeKeywords cfg) = true /\
  avgViewsMin cfg <= avg /\
  Evaluator.aboveMax cfg avg = false /\
  channelId r = cid /\
  avgViews r = avg /\
  shortsRatio r = ratio.
Proof.
  unfold Evaluator.judge, mbind, Evaluator.step_bind.
  destruct (Evaluator.hasRecentWithin cfg nowMs sample) as [[|]|w] eqn:Hrecent; cbn [negb];
    rewrite ?skipIf_false, ?skipIf_true; try discriminate.
  destruct (allowShorts cfg) eqn:Hallow, (Evaluator.positive ratio) eqn:Hpos; cbn [negb andb];
    rewrite ?skipIf_false, ?skipIf_true; try discriminate.
  all: destruct (Evaluator.excluded text (excludeKeywords cfg)) eqn:Hex;
    rewrite ?skipIf_false, ?skipIf_true; try discriminate.
  all: destruct (Evaluator.includedByKeyword text (includeKeywords cfg)) eqn:Hin; cbn [negb];
    rewrite ?skipIf_false, ?skipIf_true; try discriminate.
  all: destruct (Z.ltb_spec avg (avgViewsMin cfg));
    rewrite ?skipIf_false, ?skipIf_true; try discriminate.
  all: destruct (Evaluator.aboveMax cfg avg) eqn:Hmax;
    rewrite ?skipIf_false, ?skipIf_true; try discriminate.
  all: intros [= <-]; cbn; repeat split; auto.
Qed.

End JudgeFacts.

(** ** Evaluation of one candidate *)

Section EvaluateFacts.

Variable cfg : Config.
Variable svc : Services.
Variable cid : string.

Lemma sortByDate_stop (videos : list Video.t) (v : Verdict) :
  Evaluator.sortByDate videos = Evaluator.Stop v -> v = Failed.
Proof.
  unfold Evaluator.sortByDate. destruct videos as [|x [|y l]]; try discriminate.
  destruct (forallb _ _); [discriminate|now intros [= <-]].
Qed.

(** The verdicts the first half of the body can end an iteration with. *)
Lemma gatherSample_stop (v : Verdict) :
  Evaluator.gatherSample cfg svc cid = Evaluator.Stop v ->
  match v with
  | Failed
  | Skipped NoChannelDetails | Skipped CountryMismatch | Skipped CountryMissing
  | Skipped SubscribersBelowMin | Skipped SubscribersHidden
  | Skipped NoUploadsPlaylist | Skipped NoRecentVideos | Skipped NoVideoDetails => True
  | Saved _ | Skipped _ => False
  end.
Proof.
  unfold Evaluator.gatherSample, mbind, Evaluator.step_bind.
  destruct (getChannelsDetails svc cid) as [[|ch chs]|]; try (intros [= <-]; exact I).
  set (info := Evaluator.channelInfo ch).
  destruct (Js.truthy (country cfg) && Js.truthy (Evaluator.channelCountry info)).
  - destruct (negb _); rewrite ?skipIf_true, ?skipIf_false; [intros [= <-]; exact I|].
    destruct (Evaluator.subscriberCount info) as [n|].
    all: match goal with |- context [Evaluator.skipIf ?b _] => destruct b end;
      rewrite ?skipIf_true, ?skipIf_false; try (intros [= <-]; exact I).
    all: destruct (negb (Js.truthyOpt _));
      rewrite ?skipIf_true, ?skipIf_false; try (intros [= <-]; exact I).
    all: destruct (bool_decide (_ = []));
      rewrite ?skipIf_true, ?skipIf_false; try (intros [= <-]; exact I).
    all: destruct (bool_decide (_ = []));
      rewrite ?skipIf_true, ?skipIf_false; try (intros [= <-]; exact I).
    all: destruct (Evaluator.sortByDate _) eqn:Hsort; try discriminate.
    all: intros [= <-]; now rewrite (sortByDate_stop _ _ Hsort).
  - destruct (Js.truthy (country cfg) && negb _);
      rewrite ?skipIf_true, ?skipIf_false; [intros [= <-]; exact I|].
    destruct (Evaluator.subscriberCount info) as [n|].
    all: match goal with |- context [Evaluator.skipIf ?b _] => destruct b end;
      rewrite ?skipIf_true, ?skipIf_false; try (intros [= <-]; exact I).
    all: destruct (negb (Js.truthyOpt _));
      rewrite ?skipIf_true, ?skipIf_false; try (intros [= <-]; exact I).
    all: destruct (bool_decide (_ = []));
      rewrite ?skipIf_true, ?skipIf_false; try (intros [= <-]; exact I).
    all: destruct (bool_decide (_ = []));
      rewrite ?skipIf_true, ?skipIf_false; try (intros [= <-]; exact I).
    all: destruct (Evaluator.sortByDate _) eqn:Hsort; try discriminate.
    all: intros [= <-]; now rewrite (sortByDate_stop _ _ Hsort).
Qed.


(** A saved record comes from a gathered sample that passed every filter. *)
Lemma evaluateChannel_saved (r : OutputRecord) :
  Evaluator.evaluateChannel cfg svc cid = Saved r ->
  exists info sample,
    Evaluator.gatherSample cfg svc cid = Evaluator.Go (info, sample) /\
    Evaluator.judge cfg (now svc cid) cid info sample = Evaluator.Go r.
Proof.
  unfold Evaluator.evaluateChannel, mbind, Evaluator.step_bind.
  destruct (Evaluator.gatherSample cfg svc cid) as [[info sample]|v] eqn:Hg.
  - destruct (Evaluator.judge _ _ _ _ _) as [r'|v] eqn:Hj; cbn.
    + intros [= <-]. eauto.
    + intros ->. now apply judge_stop in Hj.
  - cbn. intros ->. now apply gatherSample_stop in Hg.
Qed.

Lemma evaluateChannel_saved_id (r : OutputRecord) :
  Evaluator.evaluateChannel cfg svc cid = Saved r -> channelId r = cid.
Proof.
  intros H. destruct (evaluateChannel_saved r H) as (info & sample & _ & Hj).
  now apply judge_go in Hj.
Qed.

End EvaluateFacts.

(** C7: when [recentVideoWithinDays] is 0 the recency check holds for every
    sample, the empty one included, and no candidate ends at the recency
    filter. *)
Theorem recency_disabled_is_vacuous (cfg : Config) :
  recentVideoWithinDays cfg = 0 ->
  (forall nowMs sample,
     Evaluator.hasRecentWithin cfg nowMs sample = Evaluator.Go true) /\
  (forall svc cid,
     Evaluator.evaluateChannel cfg svc cid <> Skipped NoRecentVideoWithin).
Proof.
  intros Hdays.
  assert (Hrecent : forall nowMs sample,
             Evaluator.hasRecentWithin cfg nowMs sample = Evaluator.Go true).
  { intros nowMs sample. unfold Evaluator.hasRecentWithin. now rewrite Hdays. }
  split; [exact Hrecent|].
  intros svc cid Hskip.
  unfold Evaluator.evaluateChannel, mbind, Evaluator.step_bind in Hskip.
  destruct (Evaluator.gatherSample cfg svc cid) as [[info sample]|v] eqn:Hg.
  - destruct (Evaluator.judge _ _ _ _ _) as [r|v] eqn:Hj; cbn in Hskip; [discriminate|].
    subst v. apply judge_stop in Hj. rewrite Hrecent in Hj. discriminate.
  - cbn in Hskip. subst v. now apply gatherSample_stop in Hg.
Qed.

Lemma recency_disabled_is_vacuous_witness :
  (forall nowMs sample,
     Evaluator.hasRecentWithin Fixtures.noRecencyConfig nowMs sample = Evaluator.Go true) /\
  (forall svc cid,
     Evaluator.evaluateChannel Fixtures.noRecencyConfig svc cid
     <> Skipped NoRecentVideoWithin).
Proof. apply (recency_disabled_is_vacuous Fixtures.noRecencyConfig). reflexivity. Defined.

(** ** Candidate collection and the main loop *)

Section PipelineFacts.

Variable urlPathname : string -> option string.
Variable cfg : Config.
Variable svc : Services.

Local Abbreviation loopBody := (Pipeline.loopBody cfg svc).
Local Abbreviation evaluationLoop := (Pipeline.evaluationLoop cfg svc).
Local Abbreviation iteration := (Pipeline.iteration cfg svc).
Local Abbreviation reachable := (Pipeline.reachable urlPathname cfg svc).
Local Abbreviation channelIdsArray := (Pipeline.channelIdsArray urlPathname cfg svc).

Lemma slice0_length {A : Type} (l : list A) (e : Z) :
  0 <= e -> Z.of_nat (length (Js.slice0 l e)) <= e.
Proof.
  intros He. unfold Js.slice0.
  destruct (Z.ltb_spec e 0); [lia|]. rewrite length_take. lia.
Qed.

(** An iteration saves at most one record, and only one that the
    evaluation of its candidate produced. *)
Lemma loopBody_results (c : string) (st : Pipeline.LoopState) :
  Pipeline.results (loopBody c st) = Pipeline.results st \/
  exists r, Evaluator.evaluateChannel cfg svc c = Saved r /\
            Pipeline.results (loopBody c st) = (Pipeline.results st ++ [r])%list.
Proof.
  unfold Pipeline.loopBody. destruct (bool_decide _); [now left|].
  destruct (Evaluator.evaluateChannel cfg svc c) as [r| |]; cbn; eauto.
Qed.

Lemma loopBody_length (c : string) (st : Pipeline.LoopState) :
  (length (Pipeline.results (loopBody c st)) <= S (length (Pipeline.results st)))%nat.
Proof.
  destruct (loopBody_results c st) as [->|(r & _ & ->)]; [lia|].
  rewrite length_app. cbn. lia.
Qed.

(** The bound on the results is kept by every iteration. *)
Lemma reachable_results_bound (p : list string * Pipeline.LoopState) :
  0 <= maxChannels cfg ->
  reachable p ->
  Z.of_nat (length (Pipeline.results (snd p))) <= maxChannels cfg.
Proof.
  intros Hmax Hreach. unfold Pipeline.reachable in Hreach.
  pattern p. eapply rtc_ind_r; [| |exact Hreach]; [cbn; lia|].
  intros y z _ Hyz IH.
  destruct Hyz as [c rest st Hguard]. cbn [snd] in *.
  unfold Pipeline.loopGuard in Hguard. apply andb_prop in Hguard as [_ Hlt].
  apply Z.ltb_lt in Hlt. pose proof (loopBody_length c st). lia.
Qed.

(** The loop function runs iterations until the guard fails. *)
Lemma evaluationLoop_run (pending : list string) (st : Pipeline.LoopState) :
  exists rest,
    rtc iteration (pending, st) (rest, evaluationLoop pending st) /\
    Pipeline.loopGuard cfg rest (evaluationLoop pending st) = false.
Proof.
  revert st. induction pending as [|c rest IH]; intros st.
  - exists []. split; [apply rtc_refl|reflexivity].
  - cbn [Pipeline.evaluationLoop].
    destruct (Pipeline.loopGuard cfg (c :: rest) st) eqn:Hguard.
    + destruct (IH (loopBody c st)) as (rest' & Hrun & Hstop).
      exists rest'. split; [|exact Hstop].
      eapply rtc_l; [|exact Hrun]. now constructor.
    + exists (c :: rest). split; [apply rtc_refl|exact Hguard].
Qed.

(** Every record of the results was saved by the evaluation of a pending id. *)
Lemma evaluationLoop_results (pending : list string) (st : Pipeline.LoopState)
  (r : OutputRecord) :
  In r (Pipeline.results (evaluationLoop pending st)) ->
  In r (Pipeline.results st) \/
  exists c, In c pending /\ Evaluator.evaluateChannel cfg svc c = Saved r.
Proof.
  revert st. induction pending as [|c rest IH]; intros st; cbn [Pipeline.evaluationLoop].
  - now left.
  - destruct (Pipeline.loopGuard cfg (c :: rest) st); [|now left].
    intros Hin. destruct (IH _ Hin) as [Hhere|(c' & Hc' & Hsaved)].
    + destruct (loopBody_results c st) as [Heq|(r' & Hsaved & Heq)]; rewrite Heq in Hhere.
      * now left.
      * apply in_app_or in Hhere as [Hold|[<-|[]]]; [now left|].
        right. exists c. split; [now left|exact Hsaved].
    + right. exists c'. split; [now right|exact Hsaved].
Qed.

Lemma run_results (r : OutputRecord) :
  In r (Pipeline.run urlPathname cfg svc) ->
  Evaluator.evaluateChannel cfg svc (channelId r) = Saved r.
Proof.
  intros Hin. apply evaluationLoop_results in Hin as [[]|(c & _ & Hsaved)].
  now rewrite (evaluateChannel_saved_id _ _ _ _ Hsaved).
Qed.

End PipelineFacts.

(** C3: in every run configuration (where [maxChannels] is not negative) the
    ids handed to the evaluation are at most [maxChannels]; at every point of
    the evaluation, and at its end, the results hold at most [maxChannels]
    records; and once they hold [maxChannels] records no further iteration
    takes place. *)
Theorem candidates_and_results_within_maxChannels
  (urlPathname : string -> option string) (cfg : Config) (svc : Services) :
  0 <= maxChannels cfg ->
  Z.of_nat (length (Pipeline.channelIdsArray urlPathname cfg svc)) <= maxChannels cfg /\
  (forall pending st,
     Pipeline.reachable urlPathname cfg svc (pending, st) ->
     Z.of_nat (length (Pipeline.results st)) <= maxChannels cfg /\
     (Z.of_nat (length (Pipeline.results st)) = maxChannels cfg ->
      forall next, ~ Pipeline.iteration cfg svc (pending, st) next)) /\
  (exists rest,
     Pipeline.reachable urlPathname cfg svc
       (rest, Pipeline.evaluationLoop cfg svc
                (Pipeline.channelIdsArray urlPathname cfg svc) Pipeline.initialState)) /\
  Z.of_nat (length (Pipeline.run urlPathname cfg svc)) <= maxChannels cfg.
Proof.
  intros Hmax.
  assert (Hfinal : exists rest,
    Pipeline.reachable urlPathname cfg svc
      (rest, Pipeline.evaluationLoop cfg svc
               (Pipeline.channelIdsArray urlPathname cfg svc) Pipeline.initialState)).
  { destruct (evaluationLoop_run cfg svc (Pipeline.channelIdsArray urlPathname cfg svc)
                Pipeline.initialState) as (rest & Hrun & _).
    now exists rest. }
  split; [|split; [|split]].
  - unfold Pipeline.channelIdsArray.
    etransitivity; [apply slice0_length; lia|lia].
  - intros pending st Hreach. split.
    + exact (reachable_results_bound urlPathname cfg svc (pending, st) Hmax Hreach).
    + intros Hfull next Hstep. inversion Hstep as [c rest st' Hguard]; subst.
      unfold Pipeline.loopGuard in Hguard. apply andb_prop in Hguard as [_ Hlt].
      apply Z.ltb_lt in Hlt. lia.
  - exact Hfinal.
  - destruct Hfinal as (rest & Hreach).
    exact (reachable_results_bound urlPathname cfg svc _ Hmax Hreach).
Qed.

Lemma candidates_and_results_within_maxChannels_witness :
  Z.of_nat (length (Pipeline.channelIdsArray Fixtures.noURL Fixtures.baseConfig
                      (Fixtures.world Fixtures.coachChannel Fixtures.coachVideos)))
  <= 200 /\
  Z.of_nat (length (Pipeline.run Fixtures.noURL Fixtures.baseConfig
                      (Fixtures.world Fixtures.coachChannel Fixtures.coachVideos)))
  <= 200.
Proof.
  pose proof (candidates_and_results_within_maxChannels Fixtures.noURL Fixtures.baseConfig
                (Fixtures.world Fixtures.coachChannel Fixtures.coachVideos)) as H.
  cbn [maxChannels Fixtures.baseConfig] in H.
  destruct (H ltac:(lia)) as (Hids & _ & _ & Hrun).
  split; [exact Hids|exact Hrun].
Defined.

(** ** Keyword filters *)

(** The keyword loop finds a match exactly when some non-empty string of the
    list occurs in the text. *)
Lemma anyKeyword_spec (text : string) (keywords : list Keyword) :
  Evaluator.anyKeyword text keywords = true <->
  exists kw, In (KwString kw) keywords /\ kw <> "" /\
             Js.includes text (Js.toLowerCase kw) = true.
Proof.
  induction keywords as [|k rest IH]; cbn [Evaluator.anyKeyword].
  - split; [discriminate|]. intros (kw & [] & _).
  - destruct k as [kw|].
    + destruct kw as [|c kw'] eqn:Hkw; cbn [Js.truthy negb].
      * rewrite IH. split.
        -- intros (kw2 & Hin & Hne & Hinc). exists kw2. split; [now right|auto].
        -- intros (kw2 & [Heq|Hin] & Hne & Hinc); [congruence|eauto].
      * destruct (Js.includes text (Js.toLowerCase (String c kw'))) eqn:Hinc.
        -- split; [|reflexivity]. intros _. exists (String c kw').
           split; [now left|]. split; [discriminate|exact Hinc].
        -- rewrite IH. split.
           ++ intros (kw2 & Hin & Hne & Hinc2). exists kw2. split; [now right|auto].
           ++ intros (kw2 & [Heq|Hin] & Hne & Hinc2); [congruence|eauto].
    + rewrite IH. split.
      * intros (kw2 & Hin & Hne & Hinc). exists kw2. split; [now right|auto].
      * intros (kw2 & [Heq|Hin] & Hne & Hinc); [discriminate|eauto].
Qed.

Lemma excluded_spec (text : string) (keywords : list Keyword) :
  Evaluator.excluded text keywords = true <->
  exists kw, In (KwString kw) keywords /\ kw <> "" /\
             Js.includes text (Js.toLowerCase kw) = true.
Proof.
  rewrite <- anyKeyword_spec. now destruct keywords.
Qed.

Lemma includedByKeyword_spec (text : string) (keywords : list Keyword) :
  Evaluator.includedByKeyword text keywords = true <->
  keywords = [] \/
  exists kw, In (KwString kw) keywords /\ kw <> "" /\
             Js.includes text (Js.toLowerCase kw) = true.
Proof.
  rewrite <- anyKeyword_spec. destruct keywords as [|k rest].
  - cbn. split; [now left|reflexivity].
  - unfold Evaluator.includedByKeyword. split; [now right|]. now intros [|].
Qed.

(** C10: falsy entries of the keyword lists are passed over. The exclude
    filter fires exactly when a non-empty exclude keyword occurs in the text,
    and the include filter is satisfied exactly when the list is empty or a
    non-empty include keyword occurs in the text; so a list of empty strings
    (or nulls) excludes nothing and, as an include list, admits nothing; and
    a candidate skipped by the exclude filter, or saved under a non-empty
    include list, has a non-empty keyword in its text. *)
Theorem falsy_keywords_are_passed_over :
  (forall text keywords,
     (Evaluator.excluded text keywords = true <->
      exists kw, In (KwString kw) keywords /\ kw <> "" /\
                 Js.includes text (Js.toLowerCase kw) = true) /\
     (Evaluator.includedByKeyword text keywords = true <->
      keywords = [] \/
      exists kw, In (KwString kw) keywords /\ kw <> "" /\
                 Js.includes text (Js.toLowerCase kw) = true)) /\
  (forall text keywords,
     Forall (fun k => k = KwNull \/ k = KwString "") keywords ->
     Evaluator.excluded text keywords = false /\
     (keywords <> [] -> Evaluator.includedByKeyword text keywords = false)) /\
  (forall cfg svc cid,
     Evaluator.evaluateChannel cfg svc cid = Skipped ExcludedByKeyword ->
     exists info sample kw,
       Evaluator.gatherSample cfg svc cid = Evaluator.Go (info, sample) /\
       In (KwString kw) (excludeKeywords cfg) /\ kw <> "" /\
       Js.includes (Evaluator.combinedText info sample) (Js.toLowerCase kw) = true) /\
  (forall cfg svc cid r,
     Evaluator.evaluateChannel cfg svc cid = Saved r ->
     includeKeywords cfg = [] \/
     exists info sample kw,
       Evaluator.gatherSample cfg svc cid = Evaluator.Go (info, sample) /\
       In (KwString kw) (includeKeywords cfg) /\ kw <> "" /\
       Js.includes (Evaluator.combinedText info sample) (Js.toLowerCase kw) = true).
Proof.
  split; [|split; [|split]].
  - intros text keywords. split; [apply excluded_spec|apply includedByKeyword_spec].
  - intros text keywords Hfalsy.
    assert (Hnone : ~ exists kw, In (KwString kw) keywords /\ kw <> "" /\
                                 Js.includes text (Js.toLowerCase kw) = true).
    { intros (kw & Hin & Hne & _). rewrite List.Forall_forall in Hfalsy.
      destruct (Hfalsy _ Hin) as [Heq|Heq]; [discriminate|]. congruence. }
    split.
    + destruct (Evaluator.excluded text keywords) eqn:He; [|reflexivity].
      exfalso. apply Hnone. now apply excluded_spec.
    + intros Hne. destruct (Evaluator.includedByKeyword text keywords) eqn:Hi; [|reflexivity].
      exfalso. apply includedByKeyword_spec in Hi as [Hnil|Hex]; auto.
  - intros cfg svc cid Hskip.
    unfold Evaluator.evaluateChannel, mbind, Evaluator.step_bind in Hskip.
    destruct (Evaluator.gatherSample cfg svc cid) as [[info sample]|v] eqn:Hg.
    + destruct (Evaluator.judge _ _ _ _ _) as [r|v] eqn:Hj; cbn in Hskip; [discriminate|].
      subst v. apply judge_stop in Hj. apply excluded_spec in Hj as (kw & Hin & Hne & Hinc).
      exists info, sample, kw. auto.
    + cbn in Hskip. subst v. now apply gatherSample_stop in Hg.
  - intros cfg svc cid r Hsaved.
    destruct (evaluateChannel_saved _ _ _ _ Hsaved) as (info & sample & Hg & Hj).
    apply judge_go in Hj as (_ & _ & _ & Hinc & _).
    apply includedByKeyword_spec in Hinc as [Hnil|(kw & Hin & Hne & Hinc)]; [now left|].
    right. exists info, sample, kw. auto.
Qed.

Example keyword_examples :
  Evaluator.excluded "any text" [KwString ""] = false /\
  Evaluator.excluded "any text" [KwNull; KwString ""] = false /\
  Evaluator.includedByKeyword "any text" [KwString ""] = false /\
  Evaluator.includedByKeyword "any text" [] = true /\
  Evaluator.excluded "marketing guru" [KwString ""; KwString "Guru"] = true /\
  Js.includes "any text" "" = true.
Proof. repeat split; reflexivity. Qed.

(** A keyword that occurs, whatever the case, in one of the parts of the
    combined text occurs in the combined text. *)
Lemma keyword_in_part (info : Evaluator.ChannelInfo) (sample : list Video.t)
  (part kw : string) :
  In part (Evaluator.combinedTextParts info sample) ->
  Js.includes (Js.toLowerCase part) (Js.toLowerCase kw) = true ->
  Js.includes (Evaluator.combinedText info sample) (Js.toLowerCase kw) = true.
Proof.
  intros Hin Hinc. unfold Evaluator.combinedText.
  destruct (join_part " " part _ Hin) as (pre & post & ->).
  rewrite !toLowerCase_app. now apply includes_inside.
Qed.

(** A gathered candidate whose text the exclude filter matches is not saved. *)
Lemma excluded_never_saved (cfg : Config) (svc : Services) (cid : string)
  (info : Evaluator.ChannelInfo) (sample : list Video.t) :
  Evaluator.gatherSample cfg svc cid = Evaluator.Go (info, sample) ->
  Evaluator.excluded (Evaluator.combinedText info sample) (excludeKeywords cfg) = true ->
  forall r, Evaluator.evaluateChannel cfg svc cid <> Saved r.
Proof.
  intros Hg Hex r Hsaved.
  destruct (evaluateChannel_saved _ _ _ _ Hsaved) as (info' & sample' & Hg' & Hj).
  rewrite Hg in Hg'. injection Hg' as <- <-.
  apply judge_go in Hj as (_ & _ & Hex' & _). congruence.
Qed.

(** A channel whose description contains a non-empty exclude keyword,
    whatever the case, is not saved. *)
Lemma exclude_keyword_in_description (cfg : Config) (svc : Services) (cid : string)
  (info : Evaluator.ChannelInfo) (sample : list Video.t) (kw : string) :
  Evaluator.gatherSample cfg svc cid = Evaluator.Go (info, sample) ->
  In (KwString kw) (excludeKeywords cfg) ->
  kw <> "" ->
  Js.includes (Js.toLowerCase (Evaluator.channelDescription info)) (Js.toLowerCase kw) = true ->
  forall r, Evaluator.evaluateChannel cfg svc cid <> Saved r.
Proof.
  intros Hg Hin Hne Hinc. apply (excluded_never_saved _ _ _ _ _ Hg).
  apply excluded_spec. exists kw. split; [exact Hin|split; [exact Hne|]].
  apply (keyword_in_part info sample (Evaluator.channelDescription info)); [|exact Hinc].
  right. now left.
Qed.




(** ** Derived metrics *)






Example avgViews_examples :
  Evaluator.computeAvgViews
    [ Fixtures.video "a" "A" 1 "1" "PT5M"; Fixtures.video "b" "B" 2 "2" "PT5M" ] = 2 /\
  Evaluator.computeAvgViews
    [ Fixtures.video "a" "A" 1 "10" "PT5M"; Fixtures.video "b" "B" 2 "" "PT5M";
      Fixtures.video "c" "C" 3 "n/a" "PT5M" ] = 3.
Proof. split; reflexivity. Qed.

Lemma lowerTitleOf_spec (v : Video.t) :
  Evaluator.lowerTitleOf v = Js.toLowerCase (Evaluator.titleOf v).
Proof.
  unfold Evaluator.lowerTitleOf, Evaluator.titleOf.
  destruct (Video.snippet v) as [sn|]; [|reflexivity]. cbn.
  destruct (Video.title sn) as [[|c t]|]; reflexivity.
Qed.

(** A video is flagged short exactly when its duration lies strictly between
    0 and 60 seconds or its title contains "short", whatever the case. *)
Lemma shortFlag_spec (v : Video.t) :
  Evaluator.shortFlag v = true <->
  0 < Evaluator.durationOf v < 60 \/
  Js.includes (Js.toLowerCase (Evaluator.titleOf v)) "short" = true.
Proof.
  unfold Evaluator.shortFlag. rewrite lowerTitleOf_spec, orb_false_r, orb_true_iff,
    andb_true_iff, Z.gtb_lt, Z.ltb_lt.
  reflexivity.
Qed.

Lemma shortCount_filter (sample : list Video.t) :
  Evaluator.shortCount sample = length (List.filter Evaluator.shortFlag sample).
Proof.
  unfold Evaluator.shortCount. induction sample as [|v rest IH]; [reflexivity|].
  cbn [map List.filter]. destruct (Evaluator.shortFlag v); cbn [length]; now rewrite IH.
Qed.

Lemma positive_spec (q : Q) : Evaluator.positive q = true <-> (0 < q)%Q.
Proof.
  unfold Evaluator.positive. rewrite negb_true_iff. split.
  - intros H. apply Qnot_le_lt. intros Hle. apply Qle_bool_iff in Hle. congruence.
  - intros H. destruct (Qle_bool q 0) eqn:Hb; [|reflexivity].
    apply Qle_bool_iff in Hb. exfalso. exact (Qlt_not_le _ _ H Hb).
Qed.

(** With shorts disallowed, any positive ratio ends the candidate at the
    shorts filter at the latest. *)
Lemma shorts_disallowed_never_saved (cfg : Config) (nowMs : Z) (cid : string)
  (info : Evaluator.ChannelInfo) (sample : list Video.t) (r : OutputRecord) :
  allowShorts cfg = false ->
  (0 < Evaluator.computeShortsRatio sample)%Q ->
  Evaluator.judge cfg nowMs cid info sample <> Evaluator.Go r.
Proof.
  intros Hallow Hpos Hgo. apply judge_go in Hgo as (_ & [Ha|Hp] & _); [congruence|].
  apply positive_spec in Hpos. congruence.
Qed.

(** C1 (as amended): [shortsRatio] is the fraction of the sample videos
    flagged short, where a video is flagged short if and only if its parsed
    duration is strictly between 0 and 60 seconds or its title contains
    "short", case-insensitively; a video whose duration is 0 or missing is
    flagged only for its title. The ratio is 0 for the empty sample, and it
    is the [shortsRatio] of the record saved for the channel. *)
Theorem shortsRatio_is_fraction_of_flagged :
  (forall v,
     Evaluator.shortFlag v = true <->
     0 < Evaluator.durationOf v < 60 \/
     Js.includes (Js.toLowerCase (Evaluator.titleOf v)) "short" = true) /\
  (forall v rest,
     let sample := v :: rest in
     (Evaluator.computeShortsRatio sample
      == inject_Z (Z.of_nat (length (List.filter Evaluator.shortFlag sample)))
         / inject_Z (Z.of_nat (length sample)))%Q) /\
  Evaluator.computeShortsRatio [] = 0%Q /\
  (forall cfg svc cid r,
     Evaluator.evaluateChannel cfg svc cid = Saved r ->
     exists info sample,
       Evaluator.gatherSample cfg svc cid = Evaluator.Go (info, sample) /\
       shortsRatio r = Evaluator.computeShortsRatio sample).
Proof.
  split; [exact shortFlag_spec|]. split; [|split; [reflexivity|]].
  - intros v rest sample. subst sample. unfold Evaluator.computeShortsRatio.
    rewrite shortCount_filter, Qmake_Qdiv.
    replace (Z.pos (Pos.of_nat (length (v :: rest)))) with (Z.of_nat (length (v :: rest)));
      [reflexivity|].
    cbn [length]. rewrite <- Pos.of_nat_succ, Zpos_P_of_succ_nat. lia.
  - intros cfg svc cid r Hsaved.
    destruct (evaluateChannel_saved _ _ _ _ Hsaved) as (info & sample & Hg & Hj).
    exists info, sample. split; [exact Hg|]. now apply judge_go in Hj.
Qed.

(** C1 (as stated) fails on a video whose duration is 0 seconds: the
    specification counts it as short (0 is under 60), the code does not. *)
Lemma zero_duration_is_not_flagged :
  map Evaluator.durationOf Fixtures.zeroDurationSample = [0] /\
  (Evaluator.computeShortsRatio Fixtures.zeroDurationSample == 0)%Q /\
  (SpecWords.specShortsRatio Fixtures.zeroDurationSample == 1)%Q /\
  ~ (Evaluator.computeShortsRatio Fixtures.zeroDurationSample
     == SpecWords.specShortsRatio Fixtures.zeroDurationSample)%Q.
Proof.
  split; [reflexivity|]. split; [reflexivity|]. split; [reflexivity|].
  vm_compute. discriminate.
Qed.

Example shortsRatio_examples :
  Evaluator.computeShortsRatio Fixtures.twoOfFiveShort = (2 # 5)%Q /\
  Evaluator.computeShortsRatio Fixtures.coachVideos = (0 # 3)%Q /\
  Evaluator.computeShortsRatio
    [ Fixtures.video "x" "My SHORTS compilation" 1 "100" "PT12M" ] = (1 # 1)%Q.
Proof. repeat split; reflexivity. Qed.

(** The sample of the specification's end-to-end example yields one record. *)
Example end_to_end_example :
  exists r,
    Pipeline.run Fixtures.noURL Fixtures.baseConfig
      (Fixtures.world Fixtures.coachChannel Fixtures.coachVideos) = [r] /\
    avgViews r = 8000 /\ (shortsRatio r == 0)%Q /\ channelId r = Fixtures.seedId.
Proof. eexists. split; [vm_compute; reflexivity|]. repeat split. Qed.

(** * Further properties of the code *)

(** ** White space and [trim] *)




(** [trim] leaves a string without white space as it is. *)
Lemma trim_no_space (s : string) :
  (forall c, In c (list_ascii_of_string s) -> Js.isSpace c = false) ->
  Js.trim s = s.
Proof.
  intros Hs. unfold Js.trim.
  assert (Js.trimStart s = s) as ->.
  { destruct s as [|c r]; [reflexivity|]. cbn [Js.trimStart].
    now rewrite (Hs c (or_introl eq_refl)). }
  induction s as [|c r IH]; [reflexivity|]. cbn [Js.trimEnd].
  rewrite IH by (intros c' Hin; apply Hs; now right).
  destruct r; [|reflexivity]. now rewrite (Hs c (or_introl eq_refl)).
Qed.

Lemma isIdChar_not_space (c : ascii) : Normalizer.isIdChar c = true -> Js.isSpace c = false.
Proof.
  destruct c as [[] [] [] [] [] [] [] []]; try reflexivity; discriminate.
Qed.

Lemma isChannelId_no_space (s : string) :
  Normalizer.isChannelId s = true ->
  forall c, In c (list_ascii_of_string s) -> Js.isSpace c = false.
Proof.
  unfold Normalizer.isChannelId. intros H.
  destruct s as [|u s']; [discriminate|].
  destruct u as [[] [] [] [] [] [] [] []]; try discriminate H.
  destruct s' as [|k r]; [discriminate|].
  destruct k as [[] [] [] [] [] [] [] []]; try discriminate H.
  change ((20 <=? String.length r)%nat && Normalizer.allIdChars r = true) in H.
  apply andb_prop in H as [_ Hall].
  intros c [<-|[<-|Hin]]; try reflexivity.
  induction r as [|x r IH]; [destruct Hin|].
  cbn [Normalizer.allIdChars] in Hall. apply andb_prop in Hall as [Hx Hr].
  destruct Hin as [<-|Hin]; [now apply isIdChar_not_space|auto].
Qed.

(** ** Identifier normalizer, continued *)

(** X1: a canonical channel id (UC followed by at least 20 characters among
    letters, digits, underscore and hyphen) is returned exactly as given,
    whatever the URL constructor would make of it. *)
Theorem normalize_canonical_id_unchanged
  (urlPathname : string -> option string) (s : string) :
  Normalizer.isChannelId s = true ->
  Normalizer.normalizeChannelIdOrUrl urlPathname s = Some s.
Proof.
  intros Hid.
  assert (Js.trim s = s) as Htrim by (apply trim_no_space, isChannelId_no_space, Hid).
  rewrite <- Htrim at 2. apply normalize_canonical. now rewrite Htrim.
Qed.

Lemma normalize_canonical_id_unchanged_witness :
  Normalizer.normalizeChannelIdOrUrl Fixtures.noURL Fixtures.seedId = Some Fixtures.seedId.
Proof. apply (normalize_canonical_id_unchanged Fixtures.noURL Fixtures.seedId). reflexivity. Defined.

Lemma split_no_sep (sep : ascii) (a : string) :
  ~ In sep (list_ascii_of_string a) -> Js.split sep a = [a].
Proof.
  induction a as [|c r IH]; cbn [Js.split list_ascii_of_string]; [reflexivity|].
  intros Hno. destruct (Ascii.eqb_spec c sep) as [->|Hne]; [exfalso; apply Hno; now left|].
  rewrite IH; [reflexivity|]. intros Hin. apply Hno. now right.
Qed.

Lemma split_app_sep (sep : ascii) (a b : string) :
  ~ In sep (list_ascii_of_string a) ->
  Js.split sep (a ++ String sep b) = a :: Js.split sep b.
Proof.
  induction a as [|c r IH]; intros Hno.
  - rewrite string_app_nil_l. cbn [Js.split]. now rewrite Ascii.eqb_refl.
  - rewrite string_app_cons. cbn [Js.split].
    destruct (Ascii.eqb_spec c sep) as [->|Hne]; [exfalso; apply Hno; now left|].
    rewrite IH; [reflexivity|]. intros Hin. apply Hno. now right.
Qed.

(** X2: when the trimmed input is a URL whose path is /channel/<id>, alone
    or followed by further segments, the normalizer returns <id> exactly. *)
Theorem normalize_channel_url_returns_id
  (urlPathname : string -> option string) (item id tail : string) :
  Js.truthy item = true ->
  Normalizer.isChannelId (Js.trim item) = false ->
  urlPathname (Js.trim item) = Some ("/channel/" ++ id ++ tail) ->
  id <> "" ->
  ~ In "/"%char (list_ascii_of_string id) ->
  tail = "" \/ (exists t, tail = String "/" t) ->
  Normalizer.normalizeChannelIdOrUrl urlPathname item = Some id.
Proof.
  intros Ht Hid Hurl Hne Hslash Htail.
  unfold Normalizer.normalizeChannelIdOrUrl. rewrite Ht, Hid, Hurl. cbn [negb].
  assert (exists more,
    Js.split "/" ("/channel/" ++ id ++ tail) = "" :: "channel" :: id :: more) as [more ->].
  { change ("/channel/" ++ id ++ tail)
      with ("" ++ String "/" ("channel" ++ String "/" (id ++ tail))).
    rewrite split_app_sep by (cbn; tauto).
    rewrite split_app_sep by (cbn; intuition discriminate).
    destruct Htail as [->|[t ->]].
    - rewrite string_app_nil_r, split_no_sep by exact Hslash. now exists [].
    - rewrite split_app_sep by exact Hslash. eauto. }
  cbn [List.filter Js.truthy]. destruct id as [|c r]; [congruence|].
  cbn [Js.truthy]. reflexivity.
Qed.

Lemma normalize_channel_url_returns_id_witness :
  Normalizer.normalizeChannelIdOrUrl
    (fun _ => Some "/channel/UCabcdefghijklmnopqrstuv/videos")
    " https://www.youtube.com/channel/UCabcdefghijklmnopqrstuv/videos"
  = Some "UCabcdefghijklmnopqrstuv".
Proof.
  apply (normalize_channel_url_returns_id
           (fun _ => Some "/channel/UCabcdefghijklmnopqrstuv/videos")
           " https://www.youtube.com/channel/UCabcdefghijklmnopqrstuv/videos"
           "UCabcdefghijklmnopqrstuv" "/videos").
  - reflexivity.
  - reflexivity.
  - reflexivity.
  - discriminate.
  - cbn. intuition discriminate.
  - right. now exists "videos".
Defined.

(** ** The entry check of the actor *)


(** ** ISO 8601 durations *)

Lemma digitValue_range (c : ascii) : Js.isDigit c = true -> 0 <= Js.digitValue c <= 9.
Proof.
  unfold Js.isDigit, Js.digitValue. intros H. apply andb_prop in H as [H1 H2].
  apply Nat.leb_le in H1, H2. lia.
Qed.

Lemma digitsValue_nonneg (s : string) (acc : Z) :
  DurationText.allDigits s -> 0 <= acc -> 0 <= Js.digitsValue acc s.
Proof.
  revert acc. induction s as [|c r IH]; intros acc Hd Hacc; cbn [Js.digitsValue]; [exact Hacc|].
  apply IH.
  - intros c' Hin. apply Hd. now right.
  - pose proof (digitValue_range c (Hd c (or_introl eq_refl))). lia.
Qed.

Lemma spanDigits_digits (s : string) : DurationText.allDigits (fst (Js.spanDigits s)).
Proof.
  induction s as [|c r IH]; cbn [Js.spanDigits]; [intros c []|].
  destruct (Js.isDigit c) eqn:Hc; [|intros c' []].
  destruct (Js.spanDigits r) as [d rest]. cbn [fst] in *.
  intros c' [<-|Hin]; [exact Hc|now apply IH].
Qed.

Lemma group_captured_nonneg (unit : ascii) (s : string) :
  0 <= Duration.captured (fst (Duration.group unit s)).
Proof.
  unfold Duration.group. pose proof (spanDigits_digits s) as Hd.
  destruct (Js.spanDigits s) as [[|d ds] [|u rest]]; cbn [fst] in *; try (cbn; lia).
  destruct (Ascii.eqb u unit); cbn [fst Duration.captured]; [|lia].
  now apply digitsValue_nonneg.
Qed.

(** X4: the parsed duration is never negative, whatever the text. *)
Theorem isoDurationToSeconds_nonneg (iso : string) :
  0 <= Duration.isoDurationToSeconds iso.
Proof.
  unfold Duration.isoDurationToSeconds.
  destruct (negb (Js.truthy iso)); [lia|].
  destruct (Duration.afterPT iso) as [r|]; [|lia].
  pose proof (group_captured_nonneg "H" r) as Hh.
  destruct (Duration.group "H" r) as [h r1].
  pose proof (group_captured_nonneg "M" r1) as Hm.
  destruct (Duration.group "M" r1) as [m r2].
  pose proof (group_captured_nonneg "S" r2) as Hs.
  destruct (Duration.group "S" r2) as [s r3].
  cbn [fst] in *. lia.
Qed.

Lemma afterPT_none (s : string) :
  Js.includes s "PT" = false -> Duration.afterPT s = None.
Proof.
  induction s as [|c r IH]; [reflexivity|].
  cbn [Js.includes]. destruct (String.prefix "PT" (String c r)) eqn:Hp; [discriminate|].
  intros Hr. specialize (IH Hr).
  cbn [String.prefix] in Hp.
  destruct (ascii_dec "P" c) as [<-|Hc].
  - destruct r as [|b r']; [reflexivity|].
    cbn [String.prefix] in Hp.
    destruct (ascii_dec "T" b) as [<-|Hb]; [destruct r'; discriminate|].
    cbn [Duration.afterPT] in IH |- *.
    destruct b as [[] [] [] [] [] [] [] []]; try exact IH. now contradiction Hb.
  - cbn [Duration.afterPT].
    destruct c as [[] [] [] [] [] [] [] []]; try exact IH. now contradiction Hc.
Qed.

(** X5: a text that does not contain [PT] parses to 0 seconds: the empty
    text, a malformed one, and also a duration of a day or more such as
    [P1DT2H], where a day designator stands between [P] and [T]. *)
Theorem isoDurationToSeconds_without_PT (iso : string) :
  Js.includes iso "PT" = false -> Duration.isoDurationToSeconds iso = 0.
Proof.
  intros H. unfold Duration.isoDurationToSeconds.
  destruct (negb (Js.truthy iso)); [reflexivity|]. now rewrite afterPT_none.
Qed.

Lemma isoDurationToSeconds_without_PT_witness :
  Duration.isoDurationToSeconds "P1DT2H" = 0.
Proof. apply (isoDurationToSeconds_without_PT "P1DT2H"). reflexivity. Defined.


Lemma digitsValue_string_of_uint (d : Decimal.uint) (acc : nat) :
  Js.digitsValue (Z.of_nat acc) (DecimalString.NilEmpty.string_of_uint d)
  = Z.of_nat (Nat.of_uint_acc d acc).
Proof.
  revert acc. induction d; intros acc;
    cbn [DecimalString.NilEmpty.string_of_uint Js.digitsValue Nat.of_uint_acc];
    [reflexivity|..];
    rewrite <- IHd; f_equal; rewrite Nat.tail_mul_spec;
    match goal with
    | |- context [Js.digitValue ?c] =>
        let v := eval vm_compute in (Js.digitValue c) in
        change (Js.digitValue c) with v
    end; lia.
Qed.


Lemma decimal_nonempty (n : nat) : DurationText.decimal n <> "".
Proof.
  unfold DurationText.decimal, DecimalString.NilZero.string_of_uint.
  destruct (Nat.to_uint n); discriminate.
Qed.

(** The digits of [n] read back as [n]. *)
Lemma decimal_value (n : nat) : Js.digitsValue 0 (DurationText.decimal n) = Z.of_nat n.
Proof.
  rewrite <- (DecimalNat.Unsigned.of_to n) at 2.
  unfold DurationText.decimal, DecimalString.NilZero.string_of_uint, Nat.of_uint.
  destruct (Nat.to_uint n) eqn:Hd; try (rewrite <- Hd; apply (digitsValue_string_of_uint _ 0)).
  reflexivity.
Qed.






Example formatDuration_examples :
  DurationText.formatDuration (Some 1%nat) (Some 2%nat) (Some 30%nat) = "PT1H2M30S" /\
  DurationText.formatDuration None None (Some 45%nat) = "PT45S" /\
  DurationText.formatDuration None (Some 10%nat) None = "PT10M" /\
  DurationText.formatDuration None None None = "PT".
Proof. repeat split; reflexivity. Qed.

(** ** API client: the retry loop, continued *)

Section RetrySuccess.

Variable Json : Type.
Variable script : Z -> ApiClient.FetchOutcome Json.
Variable maxRetries : Z.
Variable k : nat.
Variable json : Json.
Hypothesis within_ceiling : Z.of_nat k <= maxRetries.
Hypothesis success_at_k : script (Z.of_nat k) = ApiClient.OkBody json.
Hypothesis failures_before :
  forall i j, (i < k)%nat -> script (Z.of_nat i) <> ApiClient.OkBody j.

Lemma attemptLoop_first_success (d : nat) :
  forall a fuel,
    (a + d = k)%nat -> (d < fuel)%nat ->
    ApiClient.attemptLoop Json script maxRetries fuel (Z.of_nat a) (ApiClient.rounds a)
    = Some (ApiClient.Returned json, (ApiClient.rounds k ++ [ApiClient.EvFetch])%list).
Proof.
  induction d as [|d IH]; intros a fuel Ha Hfuel;
    (destruct fuel as [|fuel]; [lia|]); cbn [ApiClient.attemptLoop];
    (destruct (Z.leb_spec (Z.of_nat a) maxRetries) as [_|Hgt]; [|lia]).
  - assert (a = k) as -> by lia. now rewrite success_at_k.
  - assert (Hcatch : forall err,
      ApiClient.onCatch Json maxRetries (ApiClient.attemptLoop Json script maxRetries fuel)
        (Z.of_nat a) (ApiClient.rounds a ++ [ApiClient.EvFetch])%list err
      = Some (ApiClient.Returned json, (ApiClient.rounds k ++ [ApiClient.EvFetch])%list)).
    { intros err. unfold ApiClient.onCatch.
      destruct (Z.ltb_spec maxRetries (Z.of_nat a + 1)); [lia|].
      rewrite rounds_step. replace (Z.of_nat a + 1) with (Z.of_nat (S a)) by lia.
      apply IH; lia. }
    destruct (script (Z.of_nat a)) as [m|status text|j|m] eqn:Hs.
    + apply Hcatch.
    + destruct ((status =? 403) || (status =? 429)); [|apply Hcatch].
      rewrite rounds_step. replace (Z.of_nat a + 1) with (Z.of_nat (S a)) by lia.
      apply IH; lia.
    + exfalso. apply (failures_before a j); [lia|exact Hs].
    + apply Hcatch.
Qed.

End RetrySuccess.

(** X7: when the attempt number [k] (counted from 0, within the ceiling) is
    the first one whose fetch succeeds, the call returns the body of that
    fetch, whatever made the earlier attempts fail (rate limit, other HTTP
    status, network or parse error): the caller sees no error, only [k]
    retries with their waits. *)
Theorem youtubeApiRequest_returns_first_success (Json : Type)
  (script : Z -> ApiClient.FetchOutcome Json) (maxRetries : Z) (k : nat) (json : Json) :
  Z.of_nat k <= maxRetries ->
  script (Z.of_nat k) = ApiClient.OkBody json ->
  (forall i j, (i < k)%nat -> script (Z.of_nat i) <> ApiClient.OkBody j) ->
  ApiClient.youtubeApiRequest Json script maxRetries
  = Some (ApiClient.Returned json, (ApiClient.rounds k ++ [ApiClient.EvFetch])%list).
Proof.
  intros Hk Hok Hfail. unfold ApiClient.youtubeApiRequest, ApiClient.requestFuel.
  apply (attemptLoop_first_success Json script maxRetries k json Hk Hok Hfail k 0%nat); lia.
Qed.

Lemma youtubeApiRequest_returns_first_success_witness :
  ApiClient.youtubeApiRequest nat
    (fun n => if n <? 2 then ApiClient.NotOk 429 "quotaExceeded" else ApiClient.OkBody 7%nat)
    ApiClient.defaultMaxRetries
  = Some (ApiClient.Returned 7%nat,
          [ApiClient.EvFetch; ApiClient.EvSleep 2000; ApiClient.EvFetch;
           ApiClient.EvSleep 4000; ApiClient.EvFetch]).
Proof.
  apply (youtubeApiRequest_returns_first_success nat
           (fun n => if n <? 2 then ApiClient.NotOk 429 "quotaExceeded"
                     else ApiClient.OkBody 7%nat)
           ApiClient.defaultMaxRetries 2 7%nat).
  - unfold ApiClient.defaultMaxRetries. lia.
  - reflexivity.
  - intros i j Hi. destruct (Z.ltb_spec (Z.of_nat i) 2); [discriminate|lia].
Defined.

(** X8: the call does not make results up: a body it returns is the body of
    a fetch made within the ceiling, and an error it throws is the error of
    the attempt number [maxRetries], the last one allowed. *)
Theorem youtubeApiRequest_results_come_from_fetches (Json : Type)
  (script : Z -> ApiClient.FetchOutcome Json) (maxRetries : Z) :
  (forall json trace,
     ApiClient.youtubeApiRequest Json script maxRetries
     = Some (ApiClient.Returned json, trace) ->
     exists n, 0 <= n <= maxRetries /\ script n = ApiClient.OkBody json) /\
  (forall err trace,
     ApiClient.youtubeApiRequest Json script maxRetries
     = Some (ApiClient.Thrown err, trace) ->
     0 <= maxRetries /\
     match script maxRetries with
     | ApiClient.NotOk status text =>
         status <> 403 /\ status <> 429 /\ err = ApiClient.HttpError status text
     | ApiClient.FetchRejects message => err = ApiClient.FetchError message
     | ApiClient.OkUnreadable message => err = ApiClient.FetchError message
     | ApiClient.OkBody _ => False
     end).
Proof.
  destruct (Z.le_gt_cases 0 maxRetries) as [Hm|Hm].
  - destruct (youtubeApiRequest_ending Json script maxRetries Hm)
      as (c & trace0 & Hrun & Hend).
    rewrite Hrun. split.
    + intros json trace [= -> <-]. inversion Hend as [n j _ Hn Hok| |]; subst.
      exists (Z.of_nat n). split; [lia|exact Hok].
    + intros err trace [= -> <-]. split; [exact Hm|].
      inversion Hend as [|e Herr|]; subst.
      destruct (script maxRetries) as [m|status text|j|m]; cbn in Herr.
      * now injection Herr as <-.
      * destruct (Z.eqb_spec status 403), (Z.eqb_spec status 429); cbn in Herr;
          try discriminate. now injection Herr as <-.
      * discriminate.
      * now injection Herr as <-.
  - assert (ApiClient.youtubeApiRequest Json script maxRetries
            = Some (ApiClient.ReturnedUndefined, [])) as ->.
    { unfold ApiClient.youtubeApiRequest. cbn [ApiClient.requestFuel ApiClient.attemptLoop].
      destruct (Z.leb_spec 0 maxRetries); [lia|reflexivity]. }
    split; intros; discriminate.
Qed.

(** X9: when no attempt within the ceiling succeeds and the last one ends in
    the [catch] block (a status other than 403 and 429, a network error or
    an unreadable body), the call throws the error of that last attempt,
    after [maxRetries + 1] fetches. *)
Theorem youtubeApiRequest_throws_last_error (Json : Type)
  (script : Z -> ApiClient.FetchOutcome Json) (maxRetries : Z) (err : ApiClient.ApiError) :
  0 <= maxRetries ->
  (forall n json, 0 <= n <= maxRetries -> script n <> ApiClient.OkBody json) ->
  ApiClient.caught Json (script maxRetries) = Some err ->
  ApiClient.youtubeApiRequest Json script maxRetries
  = Some (ApiClient.Thrown err,
          (ApiClient.rounds (Z.to_nat maxRetries) ++ [ApiClient.EvFetch])%list).
Proof.
  intros Hm Hfail Hlast.
  destruct (youtubeApiRequest_ending Json script maxRetries Hm) as (c & trace & Hrun & Hend).
  rewrite Hrun. destruct Hend as [k json _ Hk Hok|err' Herr|Hrl].
  - exfalso. apply (Hfail (Z.of_nat k) json); [lia|exact Hok].
  - congruence.
  - exfalso. specialize (Hrl ltac:(lia)).
    destruct (script maxRetries) as [m|status text|json|m]; cbn in *; try discriminate.
    rewrite Hrl in Hlast. discriminate.
Qed.

Lemma youtubeApiRequest_throws_last_error_witness :
  ApiClient.youtubeApiRequest unit
    (fun n => if n <? 3 then ApiClient.NotOk 429 "quotaExceeded"
              else ApiClient.NotOk 500 "backendError")
    ApiClient.defaultMaxRetries
  = Some (ApiClient.Thrown (ApiClient.HttpError 500 "backendError"),
          (ApiClient.rounds (Z.to_nat ApiClient.defaultMaxRetries)
             ++ [ApiClient.EvFetch])%list).
Proof.
  apply (youtubeApiRequest_throws_last_error unit
           (fun n => if n <? 3 then ApiClient.NotOk 429 "quotaExceeded"
                     else ApiClient.NotOk 500 "backendError")
           ApiClient.defaultMaxRetries (ApiClient.HttpError 500 "backendError")).
  - unfold ApiClient.defaultMaxRetries. lia.
  - intros n json _. destruct (n <? 3); discriminate.
  - reflexivity.
Defined.

(** ** API client: the uploads playlist, continued *)

Section PlaylistMore.

Variable limit : Z.

(** The inner loop appends the video ids of the page, in order, up to the
    limit. *)
Lemma pushItems_take (its : list Playlist.PlaylistItem) (ids : list string) :
  Z.of_nat (length ids) < limit ->
  Playlist.pushItems limit its ids
  = (ids ++ take (Z.to_nat (limit - Z.of_nat (length ids)))
              (omap Playlist.itemVideoId its))%list.
Proof.
  revert ids. induction its as [|it rest IH]; intros ids Hlt; cbn [Playlist.pushItems omap list_omap].
  - now rewrite take_nil, app_nil_r.
  - destruct (Playlist.itemVideoId it) as [v|].
    + destruct (Z.geb_spec (Z.of_nat (length (ids ++ [v]))) limit) as [Hge|Hlt'];
        rewrite length_app in *; cbn [length] in *.
      * replace (Z.to_nat (limit - Z.of_nat (length ids))) with 1%nat by lia. reflexivity.
      * rewrite IH by (rewrite length_app; cbn; lia).
        rewrite length_app. cbn [length]. rewrite <- app_assoc. cbn [app].
        replace (Z.to_nat (limit - Z.of_nat (length ids)))
          with (S (Z.to_nat (limit - Z.of_nat (length ids + 1)))) by lia.
        reflexivity.
    + destruct (Z.geb_spec (Z.of_nat (length ids)) limit); [lia|]. now apply IH.
Qed.

(** Only requests for 1 to 50 items are made. *)
Lemma pageLoop_maxResults (r1 r2 : Z -> option string -> Playlist.PageResult) (fuel : nat) :
  (forall n token, 1 <= n <= 50 -> r1 n token = r2 n token) ->
  forall ids token,
    Z.of_nat (length ids) < limit ->
    Playlist.pageLoop r1 limit fuel ids token = Playlist.pageLoop r2 limit fuel ids token.
Proof.
  intros Hagree. induction fuel as [|fuel IH]; intros ids token Hlt; [reflexivity|].
  cbn [Playlist.pageLoop]. rewrite Hagree by lia.
  destruct (r2 _ _) as [resp| |]; try reflexivity.
  destruct (Js.truthyOpt (Playlist.nextPageToken resp)); [|reflexivity]. cbn [andb].
  destruct (Z.ltb_spec (Z.of_nat (length (Playlist.pushItems limit
              (default [] (Playlist.items resp)) ids))) limit); [|reflexivity].
  now apply IH.
Qed.

End PlaylistMore.

(** X10: for a limit of at least 1 the fetch asks each page for between 1 and
    50 items: two APIs that answer such requests alike give the same result,
    whatever they would answer to other values of [maxResults]. *)
Theorem getPlaylistVideoIds_asks_for_1_to_50
  (r1 r2 : Z -> option string -> Playlist.PageResult) (limit : Z) (fuel : nat) :
  1 <= limit ->
  (forall n token, 1 <= n <= 50 -> r1 n token = r2 n token) ->
  Playlist.getPlaylistVideoIds r1 limit fuel = Playlist.getPlaylistVideoIds r2 limit fuel.
Proof.
  intros Hlimit Hagree. unfold Playlist.getPlaylistVideoIds.
  apply pageLoop_maxResults; [exact Hagree|cbn; lia].
Qed.

Lemma getPlaylistVideoIds_asks_for_1_to_50_witness :
  Playlist.getPlaylistVideoIds Fixtures.twoPages 3 5
  = Playlist.getPlaylistVideoIds
      (fun n token => if (1 <=? n) && (n <=? 50) then Fixtures.twoPages n token
                      else Playlist.PageThrows) 3 5.
Proof.
  apply (getPlaylistVideoIds_asks_for_1_to_50 Fixtures.twoPages
           (fun n token => if (1 <=? n) && (n <=? 50) then Fixtures.twoPages n token
                           else Playlist.PageThrows) 3 5).
  - lia.
  - intros n token Hn.
    destruct (Z.leb_spec 1 n), (Z.leb_spec n 50); try lia. reflexivity.
Defined.

Section ServedPlaylist.

Variable pages : list (list Playlist.PlaylistItem).
Variable limit : Z.

Lemma indexOf_tokenOf (i : nat) : PlaylistServer.indexOf (PlaylistServer.tokenOf i) = i.
Proof.
  unfold PlaylistServer.indexOf, PlaylistServer.tokenOf. rewrite decimal_value. lia.
Qed.

Lemma tokenOf_truthy (i : nat) : Js.truthy (PlaylistServer.tokenOf i) = true.
Proof.
  unfold PlaylistServer.tokenOf. pose proof (decimal_nonempty i).
  now destruct (DurationText.decimal i).
Qed.

Lemma pageLoop_served (fuel : nat) :
  forall i ids token its,
    pages !! i = Some its ->
    PlaylistServer.askedWith i token ->
    Z.of_nat (length ids) < limit ->
    (length pages - i <= fuel)%nat ->
    Playlist.pageLoop (PlaylistServer.serve pages) limit fuel ids token
    = Some (ids ++ take (Z.to_nat (limit - Z.of_nat (length ids)))
                     (omap Playlist.itemVideoId (concat (drop i pages))))%list.
Proof.
  induction fuel as [|fuel IH]; intros i ids token its Hpage Hask Hlt Hfuel.
  { apply lookup_lt_Some in Hpage. lia. }
  cbn [Playlist.pageLoop].
  assert (PlaylistServer.serve pages
            (Z.min 50 (limit - Z.of_nat (length ids)))
            (if Js.truthyOpt token then token else None)
          = Playlist.PageJson
              {| Playlist.items := Some its;
                 Playlist.nextPageToken :=
                   if (S i <? length pages)%nat
                   then Some (PlaylistServer.tokenOf (S i)) else None |}) as ->.
  { unfold PlaylistServer.serve. destruct token as [t|]; cbn [PlaylistServer.askedWith] in Hask.
    - subst t. cbn [Js.truthyOpt]. rewrite tokenOf_truthy, indexOf_tokenOf.
      now rewrite Hpage.
    - subst i. cbn [Js.truthyOpt]. now rewrite Hpage. }
  cbn [Playlist.items Playlist.nextPageToken].
  change (default [] (Some its)) with its.
  rewrite (drop_S _ _ _ Hpage), concat_cons, omap_app.
  rewrite pushItems_take by exact Hlt.
  set (n := Z.to_nat (limit - Z.of_nat (length ids))).
  set (here := omap Playlist.itemVideoId its).
  set (later := omap Playlist.itemVideoId (concat (drop (S i) pages))).
  destruct (Nat.ltb_spec (S i) (length pages)) as [Hmore|Hlast].
  - cbn [Js.truthyOpt]. rewrite tokenOf_truthy. cbn [andb].
    destruct (Z.ltb_spec (Z.of_nat (length (ids ++ take n here))) limit) as [Hroom|Hfull].
    + rewrite length_app, length_take in Hroom.
      assert (length here < n)%nat as Hshort by (subst n; lia).
      destruct (lookup_lt_is_Some_2 pages (S i) Hmore) as [next Hnext].
      rewrite (IH (S i) _ (Some (PlaylistServer.tokenOf (S i))) next Hnext eq_refl) by
        (rewrite ?length_app, ?length_take; subst n; lia).
      rewrite take_ge by lia. f_equal.
      rewrite <- app_assoc. f_equal.
      rewrite take_app_ge by lia. f_equal. f_equal.
      rewrite length_app. subst n. lia.
    + rewrite length_app, length_take in Hfull.
      assert (n <= length here)%nat as Hlong by (subst n; lia).
      now rewrite take_app_le.
  - cbn [Js.truthyOpt andb].
    assert (later = []) as ->.
    { subst later. rewrite drop_ge by lia. reflexivity. }
    now rewrite app_nil_r.
Qed.

End ServedPlaylist.

(** X11: against a server that holds a playlist in pages and returns its
    pages whole, the fetch with a limit of at least 1 returns exactly the
    first [limit] video ids of the playlist, in order (all of them when the
    playlist has fewer), skipping the items without a video id. *)
Theorem getPlaylistVideoIds_first_ids_of_playlist
  (pages : list (list Playlist.PlaylistItem)) (limit : Z) (fuel : nat) :
  1 <= limit ->
  pages <> [] ->
  (length pages <= fuel)%nat ->
  Playlist.getPlaylistVideoIds (PlaylistServer.serve pages) limit fuel
  = Some (take (Z.to_nat limit) (PlaylistServer.videoIds pages)).
Proof.
  intros Hlimit Hne Hfuel. unfold Playlist.getPlaylistVideoIds.
  destruct pages as [|its rest] eqn:Hp; [congruence|]. rewrite <- Hp in *.
  rewrite (pageLoop_served pages limit fuel O [] None its);
    [|subst pages; reflexivity|reflexivity|cbn; lia|lia].
  cbn [app length]. rewrite drop_0. f_equal. f_equal. lia.
Qed.

Lemma getPlaylistVideoIds_first_ids_of_playlist_witness :
  Playlist.getPlaylistVideoIds
    (PlaylistServer.serve
       [ [Fixtures.playlistItem "v1"; Fixtures.playlistItem "v2"];
         [Fixtures.playlistItem "v3"; Fixtures.playlistItem "v4"];
         [Fixtures.playlistItem "v5"] ]) 3 3
  = Some (take (Z.to_nat 3)
            (PlaylistServer.videoIds
               [ [Fixtures.playlistItem "v1"; Fixtures.playlistItem "v2"];
                 [Fixtures.playlistItem "v3"; Fixtures.playlistItem "v4"];
                 [Fixtures.playlistItem "v5"] ])).
Proof.
  apply (getPlaylistVideoIds_first_ids_of_playlist
           [ [Fixtures.playlistItem "v1"; Fixtures.playlistItem "v2"];
             [Fixtures.playlistItem "v3"; Fixtures.playlistItem "v4"];
             [Fixtures.playlistItem "v5"] ] 3 3).
  - lia.
  - discriminate.
  - cbn. lia.
Defined.

Example served_playlist_example :
  Playlist.getPlaylistVideoIds
    (PlaylistServer.serve
       [ [Fixtures.playlistItem "v1"; Fixtures.playlistItem "v2"];
         [Fixtures.playlistItem "v3"; Fixtures.playlistItem "v4"];
         [Fixtures.playlistItem "v5"] ]) 3 3
  = Some ["v1"; "v2"; "v3"].
Proof. vm_compute. reflexivity. Qed.

(** ** The other API wrappers *)

Section VideosFacts.

Variable request : list string -> ApiClient.Completion Fetchers.VideosResponse.
Variable videoIds : list string.

Lemma chunkLoop_spec (fuel : nat) :
  forall i asked all,
    (length videoIds - i < fuel)%nat ->
    exists chunks,
      Fetchers.chunkLoop request videoIds fuel i asked all
      = Some ((asked ++ chunks)%list,
              (all ++ concat (map (fun c => Fetchers.delivered (request c)) chunks))%list)
      /\ concat chunks = drop i videoIds
      /\ Forall (fun c => (1 <= length c <= 50)%nat) chunks.
Proof.
  induction fuel as [|fuel IH]; intros i asked all Hfuel; [lia|].
  cbn [Fetchers.chunkLoop]. destruct (Nat.ltb_spec i (length videoIds)) as [Hlt|Hge].
  - destruct (IH (i + 50)%nat (asked ++ [take 50 (drop i videoIds)])%list
                (all ++ Fetchers.delivered (request (take 50 (drop i videoIds))))%list)
      as (chunks & Hrun & Hcat & Hall); [lia|].
    exists (take 50 (drop i videoIds) :: chunks). split; [|split].
    + rewrite Hrun. cbn [map concat]. now rewrite <- !app_assoc.
    + cbn [concat]. rewrite Hcat.
      rewrite <- drop_drop. apply take_drop.
    + constructor; [|exact Hall]. rewrite length_take, length_drop. lia.
  - exists []. split; [now rewrite !app_nil_r|]. split; [|constructor].
    now rewrite drop_ge by lia.
Qed.

End VideosFacts.

(** X12: [getVideosDetails] asks for the ids in consecutive chunks of 1 to 50
    ids that together are exactly the given list, in order (no request at
    all for an empty list), and returns the items of the chunks whose
    request succeeded, in order: a failed request loses only its own chunk. *)
Theorem getVideosDetails_chunks
  (request : list string -> ApiClient.Completion Fetchers.VideosResponse)
  (videoIds : list string) :
  exists chunks,
    Fetchers.getVideosDetails request videoIds
    = Some (chunks, concat (map (fun c => Fetchers.delivered (request c)) chunks))
    /\ concat chunks = videoIds
    /\ Forall (fun c => (1 <= length c <= 50)%nat) chunks.
Proof.
  unfold Fetchers.getVideosDetails.
  destruct (chunkLoop_spec request videoIds (S (length videoIds)) 0 [] [])
    as (chunks & Hrun & Hcat & Hall); [lia|].
  exists chunks. rewrite drop_0 in Hcat. auto.
Qed.

Example getVideosDetails_example :
  option_map fst
    (Fetchers.getVideosDetails (fun _ => ApiClient.ReturnedUndefined)
       (map (fun n => DurationText.decimal n) (seq 0 120)))
  = Some [ map (fun n => DurationText.decimal n) (seq 0 50);
           map (fun n => DurationText.decimal n) (seq 50 50);
           map (fun n => DurationText.decimal n) (seq 100 20) ].
Proof. vm_compute. reflexivity. Qed.

(** X13: [discoverChannelsBySearch] asks for at most 50 results, and every
    id it returns is a non-empty string that an item of the response carries
    as [snippet.channelId] or [id.channelId]; when the request throws or
    returns nothing it returns no id. *)
Theorem discoverChannelsBySearch_ids
  (request : string -> Z -> ApiClient.Completion Fetchers.SearchResponse)
  (query : string) (maxResults : Z) (id : string) :
  In id (Fetchers.discoverChannelsBySearch request query maxResults) ->
  id <> "" /\
  exists resp its it,
    request query (Z.min maxResults 50) = ApiClient.Returned resp /\
    Fetchers.searchItems resp = Some its /\
    In it its /\
    (Fetchers.searchSnippet it ≫= Fetchers.snippetChannelId = Some id \/
     Fetchers.searchId it ≫= Fetchers.idChannelId = Some id).
Proof.
  unfold Fetchers.discoverChannelsBySearch.
  destruct (request query (Z.min maxResults 50)) as [resp| |err]; try (intros []).
  destruct (Fetchers.searchItems resp) as [its|] eqn:Hits; [|intros []].
  intros Hin. apply list_elem_of_In, list_elem_of_omap in Hin as (it & Hit & Hid).
  apply list_elem_of_In in Hit.
  unfold Fetchers.itemChannelId in Hid.
  destruct (Js.truthyOpt (Fetchers.searchSnippet it ≫= Fetchers.snippetChannelId)) eqn:Hs.
  - rewrite Hs in Hid. split; [intros ->; now rewrite Hid in Hs|].
    exists resp, its, it. auto.
  - destruct (Js.truthyOpt (Fetchers.searchId it ≫= Fetchers.idChannelId)) eqn:Hi;
      [|discriminate].
    split; [intros ->; now rewrite Hid in Hi|].
    exists resp, its, it. auto.
Qed.

Lemma discoverChannelsBySearch_ids_witness :
  "UCx" <> "" /\
  exists resp its it,
    (fun (_ : string) (_ : Z) =>
       ApiClient.Returned
         {| Fetchers.searchItems :=
              Some [ {| Fetchers.searchSnippet := None;
                        Fetchers.searchId := Some {| Fetchers.idChannelId := Some "UCx" |} |} ] |})
      "coach" (Z.min 5 50) = ApiClient.Returned resp /\
    Fetchers.searchItems resp = Some its /\
    In it its /\
    (Fetchers.searchSnippet it ≫= Fetchers.snippetChannelId = Some "UCx" \/
     Fetchers.searchId it ≫= Fetchers.idChannelId = Some "UCx").
Proof.
  apply (discoverChannelsBySearch_ids
           (fun _ _ =>
              ApiClient.Returned
                {| Fetchers.searchItems :=
                     Some [ {| Fetchers.searchSnippet := None;
                               Fetchers.searchId :=
                                 Some {| Fetchers.idChannelId := Some "UCx" |} |} ] |})
           "coach" 5 "UCx").
  now left.
Defined.

(** X14: how a failed channel lookup shows in the evaluation. When the
    services fetch the channel through [getChannelsDetails] and the request
    throws or returns [undefined] (as it does after a rate-limited last
    attempt), the candidate ends as an error; when the response has no item
    it is skipped for want of details; in neither case is a record saved. *)
Theorem failed_channel_lookup_fails_candidate (cfg : Config) (svc : Services)
  (request : list string -> ApiClient.Completion Fetchers.ChannelsResponse)
  (cid : string) :
  getChannelsDetails svc cid = Fetchers.getChannelsDetails request [cid] ->
  match request [cid] with
  | ApiClient.ReturnedUndefined | ApiClient.Thrown _ =>
      Evaluator.evaluateChannel cfg svc cid = Failed
  | ApiClient.Returned resp =>
      match Fetchers.channelItems resp with
      | None | Some [] => Evaluator.evaluateChannel cfg svc cid = Skipped NoChannelDetails
      | Some (_ :: _) => True
      end
  end.
Proof.
  intros Hsvc. unfold Evaluator.evaluateChannel, Evaluator.gatherSample, mbind,
    Evaluator.step_bind.
  rewrite Hsvc. cbn [Fetchers.getChannelsDetails].
  destruct (request [cid]) as [resp| |err]; try reflexivity.
  destruct (Fetchers.channelItems resp) as [[|ch chs]|]; first [reflexivity|exact I].
Qed.

Lemma failed_channel_lookup_fails_candidate_witness :
  Evaluator.evaluateChannel Fixtures.baseConfig MoreFixtures.rateLimitedWorld Fixtures.seedId
  = Failed.
Proof.
  exact (failed_channel_lookup_fails_candidate Fixtures.baseConfig
           MoreFixtures.rateLimitedWorld (fun _ => ApiClient.ReturnedUndefined)
           Fixtures.seedId eq_refl).
Defined.

(** ** The sample of recent videos *)

Section SortFacts.

Variable key : Video.t -> Z.

Local Abbreviation newerFirst := (fun a b : Video.t => key b <= key a).

Lemma insertByDate_perm (v : Video.t) (l : list Video.t) :
  Evaluator.insertByDate key v l ≡ₚ v :: l.
Proof.
  induction l as [|w l IH]; cbn [Evaluator.insertByDate]; [reflexivity|].
  destruct (key v <? key w); [|reflexivity].
  rewrite IH. apply perm_swap.
Qed.

Lemma insertByDate_sorted (v : Video.t) (l : list Video.t) :
  StronglySorted newerFirst l -> StronglySorted newerFirst (Evaluator.insertByDate key v l).
Proof.
  induction l as [|w l IH]; cbn [Evaluator.insertByDate]; intros Hs.
  - repeat constructor.
  - apply StronglySorted_inv in Hs as [Hl Hw].
    destruct (Z.ltb_spec (key v) (key w)) as [Hlt|Hge].
    + constructor; [now apply IH|].
      rewrite (insertByDate_perm v l). constructor; [lia|exact Hw].
    + constructor; [now constructor|].
      constructor; [exact Hge|].
      eapply Forall_impl; [exact Hw|]. cbn. intros x Hx. lia.
Qed.

Lemma insertion_sort_spec (l : list Video.t) :
  foldr (Evaluator.insertByDate key) [] l ≡ₚ l /\
  StronglySorted newerFirst (foldr (Evaluator.insertByDate key) [] l).
Proof.
  induction l as [|v l [IHp IHs]]; cbn [foldr]; [split; [reflexivity|constructor]|].
  split; [now rewrite insertByDate_perm, IHp|now apply insertByDate_sorted].
Qed.

End SortFacts.

(** The sort rearranges the videos, newest first. *)
Lemma sortByDate_spec (videos sorted : list Video.t) :
  Evaluator.sortByDate videos = Evaluator.Go sorted ->
  sorted ≡ₚ videos /\
  StronglySorted
    (fun a b => default 0 (Evaluator.publishedAtOf b) <= default 0 (Evaluator.publishedAtOf a))
    sorted.
Proof.
  unfold Evaluator.sortByDate. destruct videos as [|x [|y l]].
  - intros [= <-]. split; [reflexivity|constructor].
  - intros [= <-]. split; [reflexivity|repeat constructor].
  - destruct (forallb _ _); [|discriminate]. intros [= <-].
    exact (insertion_sort_spec (fun v => default 0 (Evaluator.publishedAtOf v))
             (x :: y :: l)).
Qed.

Section GatherFacts.

Variable cfg : Config.
Variable svc : Services.
Variable cid : string.

(** What a gathered sample has passed and where it comes from. *)
Lemma gatherSample_go (info : Evaluator.ChannelInfo) (sample : list Video.t) :
  Evaluator.gatherSample cfg svc cid = Evaluator.Go (info, sample) ->
  exists ch chs sorted,
    getChannelsDetails svc cid = Some (ch :: chs) /\
    info = Evaluator.channelInfo ch /\
    (Js.truthy (country cfg) = true ->
     Js.truthy (Evaluator.channelCountry info) = true /\
     Js.includes (Js.toLowerCase (Evaluator.channelCountry info))
       (Js.toLowerCase (country cfg)) = true) /\
    match Evaluator.subscriberCount info with
    | Some n => Evaluator.numLt n (minSubscribers cfg) = false
    | None => minSubscribers cfg <= 0
    end /\
    Js.truthyOpt (Evaluator.uploadsPlaylistId info) = true /\
    let videoIds :=
      getPlaylistVideoIds svc (Evaluator.orEmpty (Evaluator.uploadsPlaylistId info))
        (sampleSize cfg) in
    videoIds <> [] /\
    getVideosDetails svc videoIds <> [] /\
    Evaluator.sortByDate (getVideosDetails svc videoIds) = Evaluator.Go sorted /\
    sample = Js.slice0 sorted (sampleSize cfg).
Proof.
  unfold Evaluator.gatherSample, mbind, Evaluator.step_bind.
  destruct (getChannelsDetails svc cid) as [[|ch chs]|]; try discriminate.
  set (info0 := Evaluator.channelInfo ch).
  intros H. exists ch, chs.
  assert (Hcountry :
    (Js.truthy (country cfg) = true ->
     Js.truthy (Evaluator.channelCountry info0) = true /\
     Js.includes (Js.toLowerCase (Evaluator.channelCountry info0))
       (Js.toLowerCase (country cfg)) = true) /\
    match
      (match Evaluator.subscriberCount info0 with
       | Some n => Evaluator.skipIf (Evaluator.numLt n (minSubscribers cfg)) SubscribersBelowMin
       | None => Evaluator.skipIf (minSubscribers cfg >? 0) SubscribersHidden
       end)
    with
    | Evaluator.Go _ =>
        match Evaluator.skipIf (negb (Js.truthyOpt (Evaluator.uploadsPlaylistId info0)))
                NoUploadsPlaylist with
        | Evaluator.Go _ =>
            match Evaluator.skipIf
                    (bool_decide
                       (getPlaylistVideoIds svc
                          (Evaluator.orEmpty (Evaluator.uploadsPlaylistId info0))
                          (sampleSize cfg) = [])) NoRecentVideos with
            | Evaluator.Go _ =>
                match Evaluator.skipIf
                        (bool_decide
                           (getVideosDetails svc
                              (getPlaylistVideoIds svc
                                 (Evaluator.orEmpty (Evaluator.uploadsPlaylistId info0))
                                 (sampleSize cfg)) = [])) NoVideoDetails with
                | Evaluator.Go _ =>
                    match Evaluator.sortByDate
                            (getVideosDetails svc
                               (getPlaylistVideoIds svc
                                  (Evaluator.orEmpty (Evaluator.uploadsPlaylistId info0))
                                  (sampleSize cfg))) with
                    | Evaluator.Go sorted =>
                        Evaluator.Go (info0, Js.slice0 sorted (sampleSize cfg))
                    | Evaluator.Stop v => Evaluator.Stop v
                    end
                | Evaluator.Stop v => Evaluator.Stop v
                end
            | Evaluator.Stop v => Evaluator.Stop v
            end
        | Evaluator.Stop v => Evaluator.Stop v
        end
    | Evaluator.Stop v => Evaluator.Stop v
    end = Evaluator.Go (info, sample)).
  { destruct (Js.truthy (country cfg)) eqn:Hc;
      destruct (Js.truthy (Evaluator.channelCountry info0)) eqn:Hcc; cbn [andb negb] in H.
    - destruct (Js.includes _ _) eqn:Hinc; cbn [negb] in H;
        rewrite ?skipIf_true, ?skipIf_false in H; [|discriminate].
      split; [auto|exact H].
    - rewrite skipIf_true in H. discriminate.
    - rewrite skipIf_false in H. split; [discriminate|exact H].
    - rewrite skipIf_false in H. split; [discriminate|exact H]. }
  clear H. destruct Hcountry as [Hcountry H].
  assert (Hsubs : match Evaluator.subscriberCount info0 with
                  | Some n => Evaluator.numLt n (minSubscribers cfg) = false
                  | None => minSubscribers cfg <= 0
                  end).
  { destruct (Evaluator.subscriberCount info0) as [n|].
    - destruct (Evaluator.numLt n (minSubscribers cfg)); [discriminate H|reflexivity].
    - destruct (Z.gtb_spec (minSubscribers cfg) 0); [discriminate H|lia]. }
  assert (match Evaluator.subscriberCount info0 with
          | Some n => Evaluator.skipIf (Evaluator.numLt n (minSubscribers cfg)) SubscribersBelowMin
          | None => Evaluator.skipIf (minSubscribers cfg >? 0) SubscribersHidden
          end = Evaluator.Go tt) as Hgo.
  { destruct (Evaluator.subscriberCount info0) as [n|].
    - now rewrite Hsubs.
    - destruct (Z.gtb_spec (minSubscribers cfg) 0); [lia|reflexivity]. }
  rewrite Hgo in H. clear Hgo.
  destruct (Js.truthyOpt (Evaluator.uploadsPlaylistId info0)) eqn:Hup; cbn [negb] in H;
    rewrite ?skipIf_true, ?skipIf_false in H; [|discriminate].
  destruct (bool_decide_reflect
              (getPlaylistVideoIds svc (Evaluator.orEmpty (Evaluator.uploadsPlaylistId info0))
                 (sampleSize cfg) = [])) as [|Hids];
    rewrite ?skipIf_true, ?skipIf_false in H; [discriminate|].
  destruct (bool_decide_reflect
              (getVideosDetails svc
                 (getPlaylistVideoIds svc
                    (Evaluator.orEmpty (Evaluator.uploadsPlaylistId info0))
                    (sampleSize cfg)) = [])) as [|Hvids];
    rewrite ?skipIf_true, ?skipIf_false in H; [discriminate|].
  destruct (Evaluator.sortByDate _) as [sorted|v] eqn:Hsort; [|discriminate].
  injection H as <- <-. exists sorted. repeat split; auto; apply Hcountry; assumption.
Qed.

End GatherFacts.

(** X15: the sample of a candidate is made of the most recent of the
    fetched videos: the fetched videos are the sample followed by the videos
    left out, up to their order; the sample is sorted newest first; and no
    video left out is more recent than a video of the sample. *)
Theorem sample_is_most_recent (cfg : Config) (svc : Services) (cid : string)
  (info : Evaluator.ChannelInfo) (sample : list Video.t) :
  Evaluator.gatherSample cfg svc cid = Evaluator.Go (info, sample) ->
  exists leftOut,
    (sample ++ leftOut)%list
    ≡ₚ getVideosDetails svc
         (getPlaylistVideoIds svc
            (Evaluator.orEmpty (Evaluator.uploadsPlaylistId info)) (sampleSize cfg)) /\
    StronglySorted
      (fun a b => default 0 (Evaluator.publishedAtOf b) <= default 0 (Evaluator.publishedAtOf a))
      sample /\
    forall v w, In v sample -> In w leftOut ->
      default 0 (Evaluator.publishedAtOf w) <= default 0 (Evaluator.publishedAtOf v).
Proof.
  intros Hg.
  destruct (gatherSample_go _ _ _ _ _ Hg)
    as (ch & chs & sorted & _ & _ & _ & _ & _ & _ & _ & Hsort & ->).
  apply sortByDate_spec in Hsort as [Hperm Hsorted].
  unfold Js.slice0. set (n := Z.to_nat _).
  exists (drop n sorted). rewrite take_drop. split; [exact Hperm|].
  rewrite <- (take_drop n sorted) in Hsorted.
  apply StronglySorted_app in Hsorted as (Hcross & Hs & _). split; [exact Hs|].
  intros v w Hv Hw. apply (Hcross v w); now apply list_elem_of_In.
Qed.

Lemma sample_is_most_recent_witness :
  exists leftOut,
    (Fixtures.coachVideos ++ leftOut)%list
    ≡ₚ getVideosDetails (Fixtures.world Fixtures.coachChannel Fixtures.coachVideos)
         (getPlaylistVideoIds (Fixtures.world Fixtures.coachChannel Fixtures.coachVideos)
            (Evaluator.orEmpty
               (Evaluator.uploadsPlaylistId (Evaluator.channelInfo Fixtures.coachChannel)))
            (sampleSize Fixtures.baseConfig)) /\
    StronglySorted
      (fun a b => default 0 (Evaluator.publishedAtOf b) <= default 0 (Evaluator.publishedAtOf a))
      Fixtures.coachVideos /\
    forall v w, In v Fixtures.coachVideos -> In w leftOut ->
      default 0 (Evaluator.publishedAtOf w) <= default 0 (Evaluator.publishedAtOf v).
Proof.
  apply (sample_is_most_recent Fixtures.baseConfig
           (Fixtures.world Fixtures.coachChannel Fixtures.coachVideos) Fixtures.seedId
           (Evaluator.channelInfo Fixtures.coachChannel) Fixtures.coachVideos).
  reflexivity.
Defined.

(** ** The filters, seen from the results *)

(** The record that the second half of the loop body assembles. *)
Lemma judge_go_record (cfg : Config) (nowMs : Z) (cid : string)
  (info : Evaluator.ChannelInfo) (sample : list Video.t) (r : OutputRecord) :
  Evaluator.judge cfg nowMs cid info sample = Evaluator.Go r ->
  r = {| channelId := cid;
         channelName := Evaluator.channelTitle info;
         outSubscriberCount := Evaluator.subscriberCount info;
         avgViews := Evaluator.computeAvgViews sample;
         outSampleSize := length sample;
         shortsRatio := Evaluator.computeShortsRatio sample;
         outRecentVideoWithinDays := recentVideoWithinDays cfg;
         outIncludeKeywords := includeKeywords cfg;
         outExcludeKeywords := excludeKeywords cfg;
         outCountry := Evaluator.channelCountry info;
         outDescription := Evaluator.channelDescription info;
         sampleVideos := map Evaluator.sampleVideoOf sample |}.
Proof.
  unfold Evaluator.judge, mbind, Evaluator.step_bind.
  destruct (Evaluator.hasRecentWithin cfg nowMs sample) as [[|]|w]; cbn [negb];
    rewrite ?skipIf_false, ?skipIf_true; try discriminate.
  repeat match goal with
         | |- context [Evaluator.skipIf ?b _] =>
             destruct b; rewrite ?skipIf_false, ?skipIf_true; try discriminate
         end.
  now intros [= <-].
Qed.

Lemma computeShortsRatio_nonneg (sample : list Video.t) :
  (0 <= Evaluator.computeShortsRatio sample)%Q.
Proof.
  unfold Evaluator.computeShortsRatio. destruct sample; [apply Qle_refl|].
  unfold Qle. cbn [Qnum Qden]. lia.
Qed.

Lemma truthy_nonempty (s : string) : Js.truthy s = true <-> s <> "".
Proof. destruct s; cbn; split; congruence. Qed.

(** X16: every record of the results has passed the thresholds of the
    configuration: its average views lie within [avgViewsMin] and
    [avgViewsMax] (when set); its shorts ratio is 0 when shorts are not
    allowed; its subscriber count, when known and a number, is at least
    [minSubscribers], and a hidden count occurs only when [minSubscribers]
    is not positive; its country contains the configured one, whatever the
    case; and its sample holds between 1 and [sampleSize] videos. *)
Theorem results_meet_thresholds
  (urlPathname : string -> option string) (cfg : Config) (svc : Services)
  (r : OutputRecord) :
  In r (Pipeline.run urlPathname cfg svc) ->
  avgViewsMin cfg <= avgViews r /\
  (forall mx, avgViewsMax cfg = Some mx -> avgViews r <= mx) /\
  (allowShorts cfg = false -> (shortsRatio r == 0)%Q) /\
  match outSubscriberCount r with
  | Some (Js.Int n) => minSubscribers cfg <= n
  | Some Js.NaN => True
  | None => minSubscribers cfg <= 0
  end /\
  (country cfg <> "" ->
   Js.includes (Js.toLowerCase (outCountry r)) (Js.toLowerCase (country cfg)) = true) /\
  (1 <= sampleSize cfg ->
   (1 <= outSampleSize r)%nat /\ Z.of_nat (outSampleSize r) <= sampleSize cfg) /\
  length (sampleVideos r) = outSampleSize r.
Proof.
  intros Hin. apply run_results in Hin.
  destruct (evaluateChannel_saved _ _ _ _ Hin) as (info & sample & Hg & Hj).
  pose proof (judge_go_record _ _ _ _ _ _ Hj) as Hr.
  apply judge_go in Hj as (_ & Hshorts & _ & _ & Hmin & Hmax & _).
  destruct (gatherSample_go _ _ _ _ _ Hg)
    as (ch & chs & sorted & _ & _ & Hcountry & Hsubs & _ & _ & Hvideos & Hsort & Hsample).
  rewrite Hr. cbn [avgViews shortsRatio outSubscriberCount outCountry outSampleSize
                   sampleVideos].
  split; [exact Hmin|]. split.
  { intros mx Hmx. unfold Evaluator.aboveMax in Hmax. rewrite Hmx in Hmax.
    destruct (Z.gtb_spec (Evaluator.computeAvgViews sample) mx); [discriminate|lia]. }
  split.
  { intros Hallow. destruct Hshorts as [Ha|Hp]; [congruence|].
    apply Qle_antisym; [|apply computeShortsRatio_nonneg].
    destruct (Qlt_le_dec 0 (Evaluator.computeShortsRatio sample)) as [Hlt|Hle]; [|exact Hle].
    apply positive_spec in Hlt. congruence. }
  split.
  { destruct (Evaluator.subscriberCount info) as [[|n]|]; [exact I| |exact Hsubs].
    cbn [Evaluator.numLt] in Hsubs. apply Z.ltb_ge in Hsubs. exact Hsubs. }
  split.
  { intros Hc. apply Hcountry. now apply truthy_nonempty. }
  split; [|apply length_map].
  intros Hsize. apply sortByDate_spec in Hsort as [Hperm _].
  assert (1 <= length sorted)%nat as Hlen.
  { rewrite (Permutation_length Hperm).
    destruct (getVideosDetails svc _); [congruence|cbn; lia]. }
  rewrite Hsample. unfold Js.slice0.
  destruct (Z.ltb_spec (sampleSize cfg) 0); [lia|]. rewrite length_take. lia.
Qed.

Lemma results_meet_thresholds_witness :
  exists r,
    Pipeline.run Fixtures.noURL Fixtures.baseConfig
      (Fixtures.world Fixtures.coachChannel Fixtures.coachVideos) = [r] /\
    5000 <= avgViews r /\ (forall mx, Some 20000 = Some mx -> avgViews r <= mx).
Proof.
  eexists. split; [vm_compute; reflexivity|].
  match goal with
  | |- context [avgViews ?r] =>
      destruct (results_meet_thresholds Fixtures.noURL Fixtures.baseConfig
                  (Fixtures.world Fixtures.coachChannel Fixtures.coachVideos) r)
        as (Hmin & Hmax & _)
  end.
  - vm_compute. left. reflexivity.
  - split; [exact Hmin|exact Hmax].
Defined.

(** X17: a channel that hides its subscriber count is not saved while
    [minSubscribers] is positive: it ends at the subscriber filter, unless
    the country filter has ended it before. *)
Theorem hidden_subscribers_are_skipped (cfg : Config) (svc : Services) (cid : string)
  (ch : Channel.t) (chs : list Channel.t) (st : Channel.Statistics) :
  getChannelsDetails svc cid = Some (ch :: chs) ->
  Channel.statistics ch = Some st ->
  Channel.hiddenSubscriberCount st = true ->
  0 < minSubscribers cfg ->
  (Evaluator.evaluateChannel cfg svc cid = Skipped SubscribersHidden \/
   Evaluator.evaluateChannel cfg svc cid = Skipped CountryMismatch \/
   Evaluator.evaluateChannel cfg svc cid = Skipped CountryMissing) /\
  (country cfg = "" -> Evaluator.evaluateChannel cfg svc cid = Skipped SubscribersHidden).
Proof.
  intros Hch Hst Hhid Hmin.
  assert (Evaluator.subscriberCount (Evaluator.channelInfo ch) = None) as Hsub.
  { unfold Evaluator.channelInfo. cbn [Evaluator.subscriberCount]. now rewrite Hst, Hhid. }
  unfold Evaluator.evaluateChannel, Evaluator.gatherSample, mbind, Evaluator.step_bind.
  rewrite Hch, Hsub.
  assert ((minSubscribers cfg >? 0) = true) as -> by (apply Z.gtb_lt; lia).
  rewrite skipIf_true.
  destruct (Js.truthy (country cfg)) eqn:Hc.
  - split; [|intros Heq; rewrite Heq in Hc; discriminate Hc].
    destruct (Js.truthy (Evaluator.channelCountry (Evaluator.channelInfo ch)));
      cbn [andb negb]; rewrite ?skipIf_true.
    + destruct (negb _); rewrite ?skipIf_true, ?skipIf_false; cbn; auto.
    + cbn. auto.
  - cbn [andb]. rewrite skipIf_false. cbn. auto.
Qed.

Lemma hidden_subscribers_are_skipped_witness :
  Evaluator.evaluateChannel Fixtures.baseConfig
    (Fixtures.world MoreFixtures.hiddenChannel Fixtures.coachVideos) Fixtures.seedId
  = Skipped SubscribersHidden.
Proof.
  apply (hidden_subscribers_are_skipped Fixtures.baseConfig
           (Fixtures.world MoreFixtures.hiddenChannel Fixtures.coachVideos) Fixtures.seedId
           MoreFixtures.hiddenChannel []
           {| Channel.hiddenSubscriberCount := true; Channel.subscriberCount := None |});
    try reflexivity.
Defined.

(** X18: the country filter comes first. With a country configured, a
    channel without country is skipped as such, and a channel whose country
    does not contain the configured one (compared in lower case) is skipped
    as a mismatch, whatever its other fields are. *)
Theorem country_filter_comes_first (cfg : Config) (svc : Services) (cid : string)
  (ch : Channel.t) (chs : list Channel.t) :
  getChannelsDetails svc cid = Some (ch :: chs) ->
  country cfg <> "" ->
  (Evaluator.channelCountry (Evaluator.channelInfo ch) = "" ->
   Evaluator.evaluateChannel cfg svc cid = Skipped CountryMissing) /\
  (Evaluator.channelCountry (Evaluator.channelInfo ch) <> "" ->
   Js.includes (Js.toLowerCase (Evaluator.channelCountry (Evaluator.channelInfo ch)))
     (Js.toLowerCase (country cfg)) = false ->
   Evaluator.evaluateChannel cfg svc cid = Skipped CountryMismatch).
Proof.
  intros Hch Hc. apply truthy_nonempty in Hc.
  unfold Evaluator.evaluateChannel, Evaluator.gatherSample, mbind, Evaluator.step_bind.
  rewrite Hch, Hc. split.
  - intros ->. reflexivity.
  - intros Hcc Hinc. apply truthy_nonempty in Hcc. rewrite Hcc, Hinc. reflexivity.
Qed.

Lemma country_filter_comes_first_witness :
  (Evaluator.channelCountry (Evaluator.channelInfo Fixtures.coachChannel) = "" ->
   Evaluator.evaluateChannel MoreFixtures.germanConfig
     (Fixtures.world Fixtures.coachChannel Fixtures.coachVideos) Fixtures.seedId
   = Skipped CountryMissing) /\
  (Evaluator.channelCountry (Evaluator.channelInfo Fixtures.coachChannel) <> "" ->
   Js.includes
     (Js.toLowerCase (Evaluator.channelCountry (Evaluator.channelInfo Fixtures.coachChannel)))
     (Js.toLowerCase (country MoreFixtures.germanConfig)) = false ->
   Evaluator.evaluateChannel MoreFixtures.germanConfig
     (Fixtures.world Fixtures.coachChannel Fixtures.coachVideos) Fixtures.seedId
   = Skipped CountryMismatch).
Proof.
  apply (country_filter_comes_first MoreFixtures.germanConfig
           (Fixtures.world Fixtures.coachChannel Fixtures.coachVideos) Fixtures.seedId
           Fixtures.coachChannel []).
  - reflexivity.
  - discriminate.
Defined.

Lemma someRecent_found (threshold : Z) (sample : list Video.t) :
  (forall v, In v sample -> Video.snippet v <> None) ->
  (exists v sn, In v sample /\ Video.snippet v = Some sn /\
                threshold <= Video.publishedAt sn) ->
  Evaluator.someRecent threshold sample = Evaluator.Go true.
Proof.
  induction sample as [|x rest IH]; intros Hall (v & sn & Hin & Hsn & Hle); [destruct Hin|].
  cbn [Evaluator.someRecent]. unfold Evaluator.publishedAtOf.
  destruct (Video.snippet x) as [sx|] eqn:Hx; [|now destruct (Hall x (or_introl eq_refl))].
  cbn. destruct (Z.leb_spec threshold (Video.publishedAt sx)) as [|Hold]; [reflexivity|].
  apply IH; [intros w Hw; apply Hall; now right|].
  destruct Hin as [->|Hin]; [|eauto].
  rewrite Hsn in Hx. injection Hx as ->. lia.
Qed.

Lemma someRecent_none (threshold : Z) (sample : list Video.t) :
  (forall v sn, In v sample -> Video.snippet v = Some sn ->
                Video.publishedAt sn < threshold) ->
  (forall v, In v sample -> Video.snippet v <> None) ->
  Evaluator.someRecent threshold sample = Evaluator.Go false.
Proof.
  induction sample as [|x rest IH]; intros Hold Hall; [reflexivity|].
  cbn [Evaluator.someRecent]. unfold Evaluator.publishedAtOf.
  destruct (Video.snippet x) as [sx|] eqn:Hx; [|now destruct (Hall x (or_introl eq_refl))].
  cbn. pose proof (Hold x sx (or_introl eq_refl) Hx).
  destruct (Z.leb_spec threshold (Video.publishedAt sx)); [lia|].
  apply IH; [intros v sn Hv; apply Hold; now right|intros v Hv; apply Hall; now right].
Qed.

(** X19: with the recency check enabled (a positive number of days) and a
    sample whose videos all have a snippet, the check succeeds as soon as one
    video was published within the window that ends now, and when every
    video is older than the window the candidate is skipped for want of a
    recent video, before any other filter on the sample. *)
Theorem recency_window (cfg : Config) (nowMs : Z) (cid : string)
  (info : Evaluator.ChannelInfo) (sample : list Video.t) :
  0 < recentVideoWithinDays cfg ->
  (forall v, In v sample -> Video.snippet v <> None) ->
  ((exists v sn, In v sample /\ Video.snippet v = Some sn /\
                 nowMs - recentVideoWithinDays cfg * 24 * 3600 * 1000
                 <= Video.publishedAt sn) ->
   Evaluator.hasRecentWithin cfg nowMs sample = Evaluator.Go true) /\
  ((forall v sn, In v sample -> Video.snippet v = Some sn ->
                 Video.publishedAt sn
                 < nowMs - recentVideoWithinDays cfg * 24 * 3600 * 1000) ->
   Evaluator.hasRecentWithin cfg nowMs sample = Evaluator.Go false /\
   Evaluator.judge cfg nowMs cid info sample = Evaluator.Stop (Skipped NoRecentVideoWithin)).
Proof.
  intros Hdays Hall.
  assert (Hon : negb (recentVideoWithinDays cfg =? 0) && (recentVideoWithinDays cfg >? 0)
                = true).
  { destruct (Z.eqb_spec (recentVideoWithinDays cfg) 0); [lia|].
    destruct (Z.gtb_spec (recentVideoWithinDays cfg) 0); [reflexivity|lia]. }
  unfold Evaluator.hasRecentWithin. rewrite Hon. split.
  - now apply someRecent_found.
  - intros Hold.
    assert (Evaluator.hasRecentWithin cfg nowMs sample = Evaluator.Go false) as Hfalse.
    { unfold Evaluator.hasRecentWithin. rewrite Hon. now apply someRecent_none. }
    split; [unfold Evaluator.hasRecentWithin in Hfalse; now rewrite Hon in Hfalse|].
    unfold Evaluator.judge, mbind, Evaluator.step_bind. now rewrite Hfalse.
Qed.

Lemma recency_window_witness :
  Evaluator.hasRecentWithin Fixtures.baseConfig Fixtures.today Fixtures.coachVideos
  = Evaluator.Go true.
Proof.
  apply (recency_window Fixtures.baseConfig Fixtures.today Fixtures.seedId
           (Evaluator.channelInfo Fixtures.coachChannel) Fixtures.coachVideos).
  - cbn. lia.
  - intros v Hv. cbn in Hv. decompose [or] Hv; subst; try discriminate. contradiction.
  - eexists _, _. split; [left; reflexivity|]. split; [reflexivity|]. vm_compute. discriminate.
Defined.

Lemma shortCount_positive (sample : list Video.t) (v : Video.t) :
  In v sample -> Evaluator.shortFlag v = true -> (0 < Evaluator.computeShortsRatio sample)%Q.
Proof.
  intros Hin Hflag. unfold Evaluator.computeShortsRatio.
  destruct sample as [|x rest] eqn:Hs; [destruct Hin|]. rewrite <- Hs in *.
  rewrite shortCount_filter.
  assert (In v (List.filter Evaluator.shortFlag sample)) as Hf
    by (apply filter_In; auto).
  unfold Qlt. cbn [Qnum Qden].
  destruct (List.filter Evaluator.shortFlag sample); [destruct Hf|]. cbn [length]. lia.
Qed.

(** X20: with shorts not allowed, one video of the sample flagged short is
    enough for the candidate not to be saved, however many videos the
    sample holds. *)
Theorem any_short_disqualifies (cfg : Config) (svc : Services) (cid : string)
  (info : Evaluator.ChannelInfo) (sample : list Video.t) (v : Video.t) :
  Evaluator.gatherSample cfg svc cid = Evaluator.Go (info, sample) ->
  allowShorts cfg = false ->
  In v sample ->
  Evaluator.shortFlag v = true ->
  forall r, Evaluator.evaluateChannel cfg svc cid <> Saved r.
Proof.
  intros Hg Hallow Hin Hflag r Hsaved.
  destruct (evaluateChannel_saved _ _ _ _ Hsaved) as (info' & sample' & Hg' & Hj).
  rewrite Hg in Hg'. injection Hg' as <- <-.
  eapply shorts_disallowed_never_saved; [exact Hallow| |exact Hj].
  eapply shortCount_positive; eauto.
Qed.

Lemma any_short_disqualifies_witness :
  ~ exists r,
      Evaluator.evaluateChannel Fixtures.baseConfig
        (Fixtures.world Fixtures.coachChannel Fixtures.twoOfFiveShort) Fixtures.seedId
      = Saved r.
Proof.
  intros [r Hr]. revert r Hr.
  apply (any_short_disqualifies Fixtures.baseConfig
           (Fixtures.world Fixtures.coachChannel Fixtures.twoOfFiveShort) Fixtures.seedId
           (Evaluator.channelInfo Fixtures.coachChannel) Fixtures.twoOfFiveShort
           (Fixtures.video "s1" "Tip" 1 "100" "PT30S")).
  - reflexivity.
  - reflexivity.
  - left. reflexivity.
  - reflexivity.
Defined.

(** ** The candidate set *)

Lemma setAdd_In (x y : string) (set : list string) :
  In y (Pipeline.setAdd x set) <-> y = x \/ In y set.
Proof.
  unfold Pipeline.setAdd. destruct (bool_decide_reflect (x ∈ set)) as [Hin|Hnin].
  - apply list_elem_of_In in Hin. split; [now right|]. intros [->|H]; assumption.
  - rewrite in_app_iff. cbn. split; [intros [H|[<-|[]]]; auto|intros [->|H]; auto].
Qed.

Lemma setAdd_NoDup (x : string) (set : list string) :
  NoDup set -> NoDup (Pipeline.setAdd x set).
Proof.
  intros Hnd. unfold Pipeline.setAdd.
  destruct (bool_decide_reflect (x ∈ set)) as [Hin|Hnin]; [exact Hnd|].
  apply NoDup_app. split; [exact Hnd|]. split; [|apply NoDup_singleton].
  intros y Hy Hy'. apply list_elem_of_singleton in Hy'. now subst.
Qed.

Lemma setAdd_prefix (x : string) (set : list string) :
  exists more, Pipeline.setAdd x set = (set ++ more)%list.
Proof.
  unfold Pipeline.setAdd. destruct (bool_decide _); [exists []; now rewrite app_nil_r|eauto].
Qed.

Lemma addAll_In (xs set : list string) (y : string) :
  In y (Pipeline.addAll xs set) <-> In y xs \/ In y set.
Proof.
  unfold Pipeline.addAll. revert set. induction xs as [|x xs IH]; intros set; cbn [foldl].
  - cbn. tauto.
  - rewrite IH, setAdd_In. cbn. intuition congruence.
Qed.

Lemma addAll_NoDup (xs set : list string) :
  NoDup set -> NoDup (Pipeline.addAll xs set).
Proof.
  unfold Pipeline.addAll. revert set. induction xs as [|x xs IH]; intros set Hnd; cbn [foldl];
    [exact Hnd|]. apply IH, setAdd_NoDup, Hnd.
Qed.

Lemma addAll_prefix (xs set : list string) :
  exists more, Pipeline.addAll xs set = (set ++ more)%list.
Proof.
  unfold Pipeline.addAll. revert set. induction xs as [|x xs IH]; intros set; cbn [foldl].
  - exists []. now rewrite app_nil_r.
  - destruct (IH (Pipeline.setAdd x set)) as [more ->].
    destruct (setAdd_prefix x set) as [more' ->].
    exists (more' ++ more)%list. now rewrite app_assoc.
Qed.

Section CollectFacts.

Variable urlPathname : string -> option string.
Variable cfg : Config.
Variable svc : Services.

Local Abbreviation collectSeed := (Pipeline.collectSeed urlPathname svc).
Local Abbreviation collectQuery := (Pipeline.collectQuery svc).

Lemma collectSeed_NoDup (set : list string) (s : string) :
  NoDup set -> NoDup (collectSeed set s).
Proof.
  intros Hnd. unfold Pipeline.collectSeed.
  destruct (Normalizer.normalizeChannelIdOrUrl urlPathname s) as [n|]; [|exact Hnd].
  destruct (negb (Js.truthy n)); [exact Hnd|].
  destruct (Normalizer.isChannelId n); [now apply setAdd_NoDup|now apply addAll_NoDup].
Qed.

Lemma collectSeed_prefix (set : list string) (s : string) :
  exists more, collectSeed set s = (set ++ more)%list.
Proof.
  unfold Pipeline.collectSeed.
  destruct (Normalizer.normalizeChannelIdOrUrl urlPathname s) as [n|];
    [|exists []; now rewrite app_nil_r].
  destruct (negb (Js.truthy n)); [exists []; now rewrite app_nil_r|].
  destruct (Normalizer.isChannelId n); [apply setAdd_prefix|apply addAll_prefix].
Qed.

(** What one seed contributes to the candidates. *)
Lemma collectSeed_In (set : list string) (s y : string) :
  In y (collectSeed set s) <->
  In y set \/
  exists n, Normalizer.normalizeChannelIdOrUrl urlPathname s = Some n /\ n <> "" /\
            ((Normalizer.isChannelId n = true /\ y = n) \/
             (Normalizer.isChannelId n = false /\
              In y (discoverChannelsBySearch svc n 5))).
Proof.
  unfold Pipeline.collectSeed.
  destruct (Normalizer.normalizeChannelIdOrUrl urlPathname s) as [n|].
  2: { split; [now left|]. intros [H|(n & [=] & _)]. exact H. }
  destruct (Js.truthy n) eqn:Ht; cbn [negb].
  2: { split; [now left|]. intros [H|(n' & [= <-] & Hne & _)]; [exact H|].
       apply truthy_nonempty in Hne. congruence. }
  apply truthy_nonempty in Ht.
  destruct (Normalizer.isChannelId n) eqn:Hid.
  - rewrite setAdd_In. split.
    + intros [->|H]; [right; exists n; auto|now left].
    + intros [H|(n' & [= <-] & _ & [[_ ->]|[Hf _]])]; auto. congruence.
  - rewrite addAll_In. split.
    + intros [H|H]; [right; exists n; auto|now left].
    + intros [H|(n' & [= <-] & _ & [[Hf _]|[_ H]])]; auto. congruence.
Qed.

Lemma foldl_collectSeed_In (seeds set : list string) (y : string) :
  In y (foldl collectSeed set seeds) <->
  In y set \/
  exists s n, In s seeds /\
    Normalizer.normalizeChannelIdOrUrl urlPathname s = Some n /\ n <> "" /\
    ((Normalizer.isChannelId n = true /\ y = n) \/
     (Normalizer.isChannelId n = false /\ In y (discoverChannelsBySearch svc n 5))).
Proof.
  revert set. induction seeds as [|s seeds IH]; intros set; cbn [foldl].
  - split; [now left|]. intros [H|(s & n & [] & _)]. exact H.
  - rewrite IH, collectSeed_In. split.
    + intros [[H|(n & Hn)]|(s' & n & Hin & Hn)].
      * now left.
      * right. exists s, n. split; [now left|exact Hn].
      * right. exists s', n. split; [now right|exact Hn].
    + intros [H|(s' & n & [<-|Hin] & Hn)].
      * left. now left.
      * left. right. now exists n.
      * right. now exists s', n.
Qed.

Lemma foldl_collectQuery_In (queries set : list string) (y : string) :
  In y (foldl collectQuery set queries) <->
  In y set \/ exists q, In q queries /\ In y (discoverChannelsBySearch svc q 50).
Proof.
  revert set. induction queries as [|q queries IH]; intros set; cbn [foldl].
  - split; [now left|]. intros [H|(q & [] & _)]. exact H.
  - rewrite IH. unfold Pipeline.collectQuery. rewrite addAll_In. split.
    + intros [[H|H]|(q' & Hin & H)].
      * right. exists q. split; [now left|exact H].
      * now left.
      * right. exists q'. split; [now right|exact H].
    + intros [H|(q' & [<-|Hin] & H)].
      * left. now right.
      * left. now left.
      * right. now exists q'.
Qed.

Lemma foldl_NoDup (step : list string -> string -> list string) (xs set : list string) :
  (forall set x, NoDup set -> NoDup (step set x)) ->
  NoDup set -> NoDup (foldl step set xs).
Proof.
  intros Hstep. revert set. induction xs as [|x xs IH]; intros set Hnd; cbn [foldl]; auto.
Qed.

Lemma foldl_prefix (step : list string -> string -> list string) (xs set : list string) :
  (forall set x, exists more, step set x = (set ++ more)%list) ->
  exists more, foldl step set xs = (set ++ more)%list.
Proof.
  intros Hstep. revert set. induction xs as [|x xs IH]; intros set; cbn [foldl].
  - exists []. now rewrite app_nil_r.
  - destruct (IH (step set x)) as [more ->]. destruct (Hstep set x) as [more' ->].
    exists (more' ++ more)%list. now rewrite app_assoc.
Qed.

Lemma candidateChannelIds_NoDup :
  NoDup (Pipeline.candidateChannelIds urlPathname cfg svc).
Proof.
  unfold Pipeline.candidateChannelIds.
  apply foldl_NoDup.
  - intros set q. unfold Pipeline.collectQuery. apply addAll_NoDup.
  - apply foldl_NoDup; [apply collectSeed_NoDup|constructor].
Qed.

Lemma channelIdsArray_take :
  Pipeline.channelIdsArray urlPathname cfg svc
  = take (Z.to_nat (maxChannels cfg)) (Pipeline.candidateChannelIds urlPathname cfg svc).
Proof.
  unfold Pipeline.channelIdsArray, Js.slice0.
  destruct (Z.ltb_spec (Z.max (maxChannels cfg) 0) 0); [lia|].
  set (l := Pipeline.candidateChannelIds urlPathname cfg svc).
  destruct (Z.le_gt_cases (Z.max (maxChannels cfg) 0) (Z.of_nat (length l))).
  - f_equal. lia.
  - rewrite !take_ge by lia. reflexivity.
Qed.

Lemma channelIdsArray_NoDup : NoDup (Pipeline.channelIdsArray urlPathname cfg svc).
Proof.
  rewrite channelIdsArray_take.
  eapply sublist_NoDup; [apply candidateChannelIds_NoDup|apply sublist_take].
Qed.

End CollectFacts.

(** X21: the candidate set holds no id twice and keeps the order of
    discovery: the ids that come from the seeds stand first, those that only
    the search queries yield follow, and the ids handed to the evaluation
    are the first [maxChannels] of them. *)
Theorem candidates_are_distinct_and_ordered
  (urlPathname : string -> option string) (cfg : Config) (svc : Services) :
  NoDup (Pipeline.candidateChannelIds urlPathname cfg svc) /\
  (exists fromQueries,
     Pipeline.candidateChannelIds urlPathname cfg svc
     = (foldl (Pipeline.collectSeed urlPathname svc) [] (seedChannels cfg)
        ++ fromQueries)%list) /\
  Pipeline.channelIdsArray urlPathname cfg svc
  = take (Z.to_nat (maxChannels cfg)) (Pipeline.candidateChannelIds urlPathname cfg svc) /\
  NoDup (Pipeline.channelIdsArray urlPathname cfg svc).
Proof.
  split; [apply candidateChannelIds_NoDup|]. split.
  - unfold Pipeline.candidateChannelIds. apply foldl_prefix.
    intros set q. unfold Pipeline.collectQuery. apply addAll_prefix.
  - split; [apply channelIdsArray_take|apply channelIdsArray_NoDup].
Qed.

(** X22: an id is a candidate exactly when it is the normalized form of a
    seed that has the shape of a channel id, or a result of the search (for
    at most 5 results) for the normalized form of a seed that has not that
    shape and is not empty, or a result of the search (for at most 50
    results) for one of the search queries. *)
Theorem candidate_provenance
  (urlPathname : string -> option string) (cfg : Config) (svc : Services) (id : string) :
  In id (Pipeline.candidateChannelIds urlPathname cfg svc) <->
  (exists seed n,
     In seed (seedChannels cfg) /\
     Normalizer.normalizeChannelIdOrUrl urlPathname seed = Some n /\ n <> "" /\
     ((Normalizer.isChannelId n = true /\ id = n) \/
      (Normalizer.isChannelId n = false /\ In id (discoverChannelsBySearch svc n 5)))) \/
  (exists q, In q (searchQueries cfg) /\ In id (discoverChannelsBySearch svc q 50)).
Proof.
  unfold Pipeline.candidateChannelIds.
  rewrite foldl_collectQuery_In, foldl_collectSeed_In. cbn [In]. tauto.
Qed.

(** ** The main loop, characterised *)

Lemma omap_cons_list {A B : Type} (f : A -> option B) (x : A) (l : list A) :
  omap f (x :: l) = (option_list (f x) ++ omap f l)%list.
Proof. cbn. now destruct (f x). Qed.

Section LoopFacts.

Variable cfg : Config.
Variable svc : Services.

Local Abbreviation savedOf := (Outcome.savedOf cfg svc).

Lemma loopBody_fresh (c : string) (st : Pipeline.LoopState) :
  c ∉ Pipeline.processed st ->
  Pipeline.results (Pipeline.loopBody cfg svc c st)
  = (Pipeline.results st ++ option_list (savedOf c))%list /\
  Pipeline.processed (Pipeline.loopBody cfg svc c st) = {[c]} ∪ Pipeline.processed st.
Proof.
  intros Hfresh. unfold Pipeline.loopBody, Outcome.savedOf.
  rewrite bool_decide_false by exact Hfresh.
  destruct (Evaluator.evaluateChannel cfg svc c); cbn; rewrite ?app_nil_r; auto.
Qed.

(** On distinct ids not yet processed, the loop appends the records that the
    candidates save, in order, until the results hold [maxChannels]. *)
Lemma evaluationLoop_spec (pending : list string) :
  forall st,
    NoDup pending ->
    (forall c, In c pending -> c ∉ Pipeline.processed st) ->
    Pipeline.results (Pipeline.evaluationLoop cfg svc pending st)
    = (Pipeline.results st
       ++ take (Z.to_nat (maxChannels cfg - Z.of_nat (length (Pipeline.results st))))
            (omap savedOf pending))%list.
Proof.
  induction pending as [|c rest IH]; intros st Hnd Hfresh; cbn [Pipeline.evaluationLoop].
  - cbn. now rewrite take_nil, app_nil_r.
  - unfold Pipeline.loopGuard. rewrite bool_decide_true by discriminate. cbn [andb].
    destruct (Z.ltb_spec (Z.of_nat (length (Pipeline.results st))) (maxChannels cfg))
      as [Hroom|Hfull].
    2: { replace (Z.to_nat _) with O by lia. now rewrite take_0, app_nil_r. }
    apply NoDup_cons in Hnd as [Hc Hnd].
    destruct (loopBody_fresh c st (Hfresh c (or_introl eq_refl))) as [Hres Hproc].
    rewrite IH; [|exact Hnd|].
    2: { intros c' Hc'. rewrite Hproc. intros Hin.
         apply elem_of_union in Hin as [Hin|Hin].
         - apply elem_of_singleton in Hin. subst c'. apply Hc. now apply list_elem_of_In.
         - exact (Hfresh c' (or_intror Hc') Hin). }
    rewrite Hres, omap_cons_list.
    destruct (savedOf c) as [r|]; cbn [option_list].
    + rewrite length_app. cbn [length]. rewrite <- app_assoc. cbn [app]. f_equal.
      replace (Z.to_nat (maxChannels cfg - Z.of_nat (length (Pipeline.results st))))
        with (S (Z.to_nat (maxChannels cfg
                           - Z.of_nat (length (Pipeline.results st) + 1)))) by lia.
      reflexivity.
    + now rewrite app_nil_r.
Qed.

(** The ids of the saved records follow the order of the candidates. *)
Lemma saved_ids_sublist (ids : list string) :
  map channelId (omap savedOf ids) `sublist_of` ids.
Proof.
  induction ids as [|c rest IH]; [constructor|]. rewrite omap_cons_list.
  unfold Outcome.savedOf at 1.
  destruct (Evaluator.evaluateChannel cfg svc c) as [r| |] eqn:He.
  - change (option_list (Some r)) with [r]. cbn [map app].
    rewrite (evaluateChannel_saved_id _ _ _ _ He). now constructor.
  - now constructor.
  - now constructor.
Qed.

End LoopFacts.

(** X23: the results of a run are the records that the candidates handed to
    the evaluation save, in the order of the candidates, cut after the first
    [maxChannels] of them. *)
Theorem run_is_first_saved_records
  (urlPathname : string -> option string) (cfg : Config) (svc : Services) :
  Pipeline.run urlPathname cfg svc
  = take (Z.to_nat (maxChannels cfg))
      (omap (Outcome.savedOf cfg svc) (Pipeline.channelIdsArray urlPathname cfg svc)).
Proof.
  unfold Pipeline.run.
  rewrite evaluationLoop_spec.
  - cbn [Pipeline.results Pipeline.initialState app length]. f_equal. lia.
  - apply channelIdsArray_NoDup.
  - intros c _. cbn. apply not_elem_of_empty.
Qed.

(** X24: a channel appears at most once in the results, and the channels of
    the results come in the order in which the candidates were discovered. *)
Theorem results_have_distinct_channels
  (urlPathname : string -> option string) (cfg : Config) (svc : Services) :
  NoDup (map channelId (Pipeline.run urlPathname cfg svc)) /\
  map channelId (Pipeline.run urlPathname cfg svc)
  `sublist_of` Pipeline.candidateChannelIds urlPathname cfg svc.
Proof.
  assert (map channelId (Pipeline.run urlPathname cfg svc)
          `sublist_of` Pipeline.channelIdsArray urlPathname cfg svc) as Hsub.
  { unfold Pipeline.run. rewrite evaluationLoop_spec;
      [|apply channelIdsArray_NoDup|intros c _; cbn; apply not_elem_of_empty].
    cbn [Pipeline.results Pipeline.initialState app].
    change (map channelId ?l) with (channelId <$> l). rewrite fmap_take.
    etransitivity; [apply sublist_take|]. apply saved_ids_sublist. }
  split.
  - eapply sublist_NoDup; [apply channelIdsArray_NoDup|exact Hsub].
  - etransitivity; [exact Hsub|]. rewrite channelIdsArray_take. apply sublist_take.
Qed.

Example run_examples :
  map channelId
    (Pipeline.run Fixtures.noURL MoreFixtures.twoSeedsConfig
       (Fixtures.world Fixtures.coachChannel Fixtures.coachVideos))
  = [Fixtures.seedId; "UCzyxwvutsrqponmlkjihgfe"] /\
  map channelId
    (Pipeline.run Fixtures.noURL MoreFixtures.oneOfTwoConfig
       (Fixtures.world Fixtures.coachChannel Fixtures.coachVideos))
  = [Fixtures.seedId].
Proof. split; vm_compute; reflexivity. Qed.

(** ** Derived metrics, continued *)





(** X26: the shorts ratio is a fraction between 0 and 1. *)
Theorem shortsRatio_between_0_and_1 (sample : list Video.t) :
  (0 <= Evaluator.computeShortsRatio sample <= 1)%Q.
Proof.
  split; [apply computeShortsRatio_nonneg|].
  unfold Evaluator.computeShortsRatio. destruct sample as [|v rest] eqn:Hs; [discriminate|].
  rewrite <- Hs. rewrite shortCount_filter. unfold Qle. cbn [Qnum Qden].
  pose proof (filter_length_le Evaluator.shortFlag sample).
  assert (0 < length sample)%nat by (rewrite Hs; cbn; lia).
  rewrite Z.mul_1_r, Z.mul_1_l.
  replace (Z.pos (Pos.of_nat (length sample))) with (Z.of_nat (length sample)); [lia|].
  destruct (length sample) as [|k]; [lia|].
  rewrite <- Pos.of_nat_succ, Zpos_P_of_succ_nat. lia.
Qed.




